(** * Text-to-speech dispatch and voice filtering of the AI journalist backend

    A shallow embedding of
      - [filter_voice_models]  (src/test_speechify_simple.py, lines 148-164),
      - [generate_news_audio]  (src/backend.py, lines 16-69),
    together with a model of [utils.text_to_audio_speechify], whose source is
    not part of the repository snapshot and is reconstructed from the
    specification and from the tests that exercise it.

    Python [str] values are modelled by [string] (sequences of bytes);
    [str.lower] is modelled on the ASCII range, which covers the gender
    values the catalogue uses.  Python [None] for an optional keyword
    argument is [None] of an [option]. *)

From Stdlib Require Import String Ascii List Bool Arith Lia.
From stdpp Require Import base option list gmap strings pretty.
Import ListNotations.
Local Open Scope string_scope.

(** ** Python strings *)

(** [c.lower()] for one ASCII character: 'A'..'Z' are shifted by 32. *)
Definition lower_ascii (c : ascii) : ascii :=
  let n := nat_of_ascii c in
  if (65 <=? n)%nat && (n <=? 90)%nat then ascii_of_nat (n + 32) else c.

(** [s.lower()] on the ASCII letters.  Bytes of non-ASCII characters are
    left as they are, where [str.lower] also lower-cases letters such as
    'É'; the properties of the gender criterion are stated through [lower]
    itself. *)
Fixpoint lower (s : string) : string :=
  match s with
  | EmptyString => EmptyString
  | String c rest => String (lower_ascii c) (lower rest)
  end.

(** Truthiness of a Python string: only the empty string is falsy. *)
Definition truthy_str (s : string) : bool := negb (String.eqb s "").

(** Truthiness of a Python list: only the empty list is falsy. *)
Definition truthy_list {A : Type} (l : list A) : bool :=
  match l with [] => false | _ :: _ => true end.

(** [x in xs] for a list of strings. *)
Definition str_in (x : string) (xs : list string) : bool :=
  existsb (String.eqb x) xs.

(** ** The voice catalogue's data (the attributes the filter reads) *)

Record Language := { locale : string }.

Record Model := { name : string; languages : list Language }.

Record Voice := { gender : string; tags : list string; models : list Model }.

(** ** filter_voice_models *)

(** [if gender and voice.gender.lower() != gender.lower(): continue] *)
Definition gender_skip (g : option string) (voice : Voice) : bool :=
  match g with
  | None => false
  | Some g => truthy_str g && negb (String.eqb (lower (gender voice)) (lower g))
  end.

(** [any(any(lang.locale == locale for lang in model.languages)
         for model in voice.models)] *)
Definition any_locale (loc : string) (voice : Voice) : bool :=
  existsb (fun model => existsb (fun lang => String.eqb (locale lang) loc) (languages model))
          (models voice).

(** [if locale: if not any(...): continue] *)
Definition locale_skip (loc : option string) (voice : Voice) : bool :=
  match loc with
  | None => false
  | Some loc => truthy_str loc && negb (any_locale loc voice)
  end.

(** [all(tag in voice.tags for tag in tags)] *)
Definition all_tags (ts : list string) (voice : Voice) : bool :=
  forallb (fun tag => str_in tag (tags voice)) ts.

(** [if tags: if not all(...): continue] *)
Definition tags_skip (ts : option (list string)) (voice : Voice) : bool :=
  match ts with
  | None => false
  | Some ts => truthy_list ts && negb (all_tags ts voice)
  end.

(** [for model in voice.models: results.append(model.name)] *)
Definition append_model_names (results : list string) (voice : Voice) : list string :=
  fold_left (fun acc model => (acc ++ [name model])%list) (models voice) results.

(** The body of [for voice in voices], threaded through the accumulator
    [results]; each [continue] leaves the accumulator as it is. *)
Fixpoint filter_loop (voices : list Voice)
    (g loc : option string) (ts : option (list string))
    (results : list string) : list string :=
  match voices with
  | [] => results
  | voice :: rest =>
      if gender_skip g voice then filter_loop rest g loc ts results
      else if locale_skip loc voice then filter_loop rest g loc ts results
      else if tags_skip ts voice then filter_loop rest g loc ts results
      else filter_loop rest g loc ts (append_model_names results voice)
  end.

(** [def filter_voice_models(voices, *, gender=None, locale=None, tags=None)] *)
Definition filter_voice_models (voices : list Voice)
    (g loc : option string) (ts : option (list string)) : list string :=
  filter_loop voices g loc ts [].

(** *** Derived vocabulary for stating the filter's properties *)

(** A voice passes all three guards. *)
Definition qualifies (g loc : option string) (ts : option (list string))
    (voice : Voice) : bool :=
  negb (gender_skip g voice) && negb (locale_skip loc voice) && negb (tags_skip ts voice).

(** The voices that survive the guards, in catalogue order. *)
Definition selected (voices : list Voice)
    (g loc : option string) (ts : option (list string)) : list Voice :=
  List.filter (qualifies g loc ts) voices.

Definition model_names (voice : Voice) : list string := map name (models voice).

(** The same voice carrying another tag list. *)
Definition with_tags (voice : Voice) (new_tags : list string) : Voice :=
  {| gender := gender voice; tags := new_tags; models := models voice |}.

(** The two voices of [test_voice_filtering_logic]. *)
Definition mock_voice1 : Voice :=
  {| gender := "male"; tags := ["timbre:deep"; "accent:american"];
     models := [ {| name := "voice1"; languages := [ {| locale := "en-US" |} ] |} ] |}.

Definition mock_voice2 : Voice :=
  {| gender := "female"; tags := ["timbre:bright"];
     models := [ {| name := "voice2"; languages := [ {| locale := "fr-FR" |} ] |} ] |}.

(** Two voices that share one model name, as the voices of a real catalogue
    do (every voice lists the provider's engines). *)
Definition shared_a : Voice :=
  {| gender := "male"; tags := [];
     models := [ {| name := "simba-multilingual"; languages := [ {| locale := "fr-FR" |} ] |} ] |}.

Definition shared_b : Voice :=
  {| gender := "female"; tags := [];
     models := [ {| name := "simba-multilingual"; languages := [ {| locale := "en-US" |} ] |} ] |}.

(** ** Python exceptions and the world the handler runs in *)

(** The exception classes the handler and the providers raise; every one is
    a subclass of [Exception], which is what [except Exception] catches.
    [IOError] is Python 3's alias of [OSError].  Signals that derive from
    [BaseException] only (interrupts, interpreter exit) are not errors of a
    provider and are not modelled. *)
Inductive exn : Type :=
| ValueError (msg : string)
| OSError (msg : string)
| HTTPException (status_code : nat) (detail : string)
| Exception (msg : string).

(** [str(e)] *)
Definition str (e : exn) : string :=
  match e with
  | ValueError msg | OSError msg | Exception msg => msg
  | HTTPException status_code detail => pretty status_code ++ ": " ++ detail
  end.

(** The error kinds of the specification's taxonomy (section 7). *)
Inductive error_kind := ConfigError | ProviderError | IOError.

Definition kind_of (e : exn) : error_kind :=
  match e with
  | ValueError _ => ConfigError
  | OSError _ => IOError
  | HTTPException _ _ | Exception _ => ProviderError
  end.

Definition bytes := list Byte.byte.

(** An entry of the file system. *)
Inductive node := File (content : bytes) | Directory.

(** Process-wide state a provider can read and change. *)
Record World := {
  environ : gmap string string;   (* os.environ *)
  files : gmap string node;       (* the file system, by path *)
  free_space : nat;               (* bytes the disk can still take *)
  network : list string;          (* remote endpoints called so far *)
  clock : nat                     (* source of timestamps *)
}.

Inductive Outcome (A : Type) : Type :=
| Return (a : A)
| Raise (e : exn).
Arguments Return {A} a.
Arguments Raise {A} e.

(** A callable of the outside world: it may change the world and either
    returns or raises. *)
Definition Effect (A : Type) : Type := World -> Outcome A * World.

Inductive Provider := Speechify | ElevenLabs | GTTS.

(** What a run of the handler has done so far: the world, the providers it
    has invoked (in order) and the lines it has printed. *)
Record Run := {
  world : World;
  invoked : list Provider;
  stdout : list string
}.

Definition M (A : Type) : Type := Run -> Outcome A * Run.

Definition ret {A} (a : A) : M A := fun r => (Return a, r).

Definition bind {A B} (m : M A) (k : A -> M B) : M B :=
  fun r => match m r with
           | (Return a, r') => k a r'
           | (Raise e, r') => (Raise e, r')
           end.

Definition raise {A} (e : exn) : M A := fun r => (Raise e, r).

(** [try: body  except Exception as e: handler(e)] *)
Definition try_except {A} (body : M A) (handler : exn -> M A) : M A :=
  fun r => match body r with
           | (Return a, r') => (Return a, r')
           | (Raise e, r') => handler e r'
           end.

(** Running an outside callable that is not a speech provider. *)
Definition lift {A} (f : Effect A) : M A :=
  fun r => let (o, w) := f (world r) in
           (o, {| world := w; invoked := invoked r; stdout := stdout r |}).

(** Calling a speech provider: the call is recorded, then it runs. *)
Definition call {A} (p : Provider) (f : Effect A) : M A :=
  fun r => let (o, w) := f (world r) in
           (o, {| world := w; invoked := (invoked r ++ [p])%list; stdout := stdout r |}).

(** [print(line)] *)
Definition print (line : string) : M unit :=
  fun r => (Return tt, {| world := world r; invoked := invoked r;
                          stdout := (stdout r ++ [line])%list |}).

#[global] Instance M_ret : MRet M := @ret.
#[global] Instance M_bind : MBind M := fun A B k m => bind m k.

(** [os.getenv(key)] *)
Definition getenv (key : string) : M (option string) :=
  fun r => (Return (environ (world r) !! key), r).

(** [Path(p).exists()] *)
Definition path_exists (p : string) : M bool :=
  fun r => (Return (bool_decide (is_Some (files (world r) !! p))), r).

(** [repr(s)] of a string, as [OSError.__str__] renders a file name: the
    text is put between single quotes, or between double quotes when it
    holds a single quote and no double quote; the quote in use and the
    backslash are escaped, tab, newline and carriage return are written
    [\t], [\n], [\r], other control characters [\xNN]; bytes of non-ASCII
    characters are kept. *)
Definition hex_digit (n : nat) : ascii :=
  nth n (list_ascii_of_string "0123456789abcdef") "0"%char.

Definition repr_char (quote c : ascii) : string :=
  let n := nat_of_ascii c in
  if Ascii.eqb c quote || Ascii.eqb c "\"%char then String "\"%char (String c "")
  else if Nat.eqb n 9 then "\t"
  else if Nat.eqb n 10 then "\n"
  else if Nat.eqb n 13 then "\r"
  else if (n <? 32)%nat || Nat.eqb n 127
       then String "\"%char (String "x"%char
              (String (hex_digit (n / 16)) (String (hex_digit (n mod 16)) "")))
  else String c "".

Fixpoint repr_body (quote : ascii) (s : string) : string :=
  match s with
  | EmptyString => EmptyString
  | String c rest => repr_char quote c ++ repr_body quote rest
  end.

Definition py_repr (s : string) : string :=
  let chars := list_ascii_of_string s in
  let quote :=
    if existsb (Ascii.eqb "'"%char) chars && negb (existsb (Ascii.eqb "034"%char) chars)
    then "034"%char else "'"%char in
  String quote (repr_body quote s ++ String quote "").

(** [with open(p, "rb") as f: f.read()]; the text of the [OSError] is
    [[Errno n] message: repr(p)]. *)
Definition read_bytes (p : string) : M bytes :=
  fun r => match files (world r) !! p with
           | Some (File content) => (Return content, r)
           | Some Directory =>
               (Raise (OSError ("[Errno 21] Is a directory: " ++ py_repr p)), r)
           | None =>
               (Raise (OSError ("[Errno 2] No such file or directory: " ++ py_repr p)), r)
           end.

(** ** The handler of src/backend.py *)

(** Keyword arguments of [text_to_audio_speechify]. *)
Record SpeechifyArgs := {
  text : string;
  voice_id : string;
  model : string;
  audio_format : string;
  language : string;
  loudness_normalization : bool;
  text_normalization : bool;
  output_dir : string
}.

(** Keyword arguments of [text_to_audio_elevenlabs_sdk]. *)
Record ElevenLabsArgs := {
  el_text : string;
  el_voice_id : string;
  el_model_id : string;
  el_output_format : string;
  el_output_dir : string
}.

(** [models.NewsRequest] *)
Record NewsRequest := { topics : list string; source_type : string }.

(** [fastapi.Response] *)
Record Response := {
  content : bytes;
  media_type : string;
  headers : list (string * string)
}.

(** Lines 62-66: the response that carries the audio. *)
Definition audio_response (audio_bytes : bytes) : Response :=
  {| content := audio_bytes; media_type := "audio/mpeg";
     headers := [("Content-Disposition", "attachment; filename=news-summary.mp3")] |}.

Section Backend.

(** The collaborators imported from [utils], [news_scraper] and
    [reddit_scraper]; their sources are outside the repository snapshot, so
    the handler is modelled over arbitrary implementations. *)
Context {Data : Type} (empty_dict : Data).
Variable scrape_news : list string -> Effect Data.
Variable scrape_reddit_topics : list string -> Effect Data.
Variable generate_broadcast_news :
  option string -> Data -> Data -> list string -> Effect string.
Variable text_to_audio_speechify : SpeechifyArgs -> Effect string.
Variable text_to_audio_elevenlabs_sdk : ElevenLabsArgs -> Effect string.

(** The arguments of the two provider calls (lines 39-46 and 50-56); the
    two normalisation flags are left at their defaults. *)
Definition speechify_call (news_summary : string) : SpeechifyArgs :=
  {| text := news_summary; voice_id := "scott"; model := "simba-english";
     audio_format := "mp3"; language := "en-US";
     loudness_normalization := true; text_normalization := true;
     output_dir := "audio" |}.

Definition elevenlabs_call (news_summary : string) : ElevenLabsArgs :=
  {| el_text := news_summary; el_voice_id := "JBFqnCBsd6RMkjVDRZzb";
     el_model_id := "eleven_multilingual_v2"; el_output_format := "mp3_44100_128";
     el_output_dir := "audio" |}.

(** Lines 19-35: scraping and summarising. *)
Definition gather_summary (request : NewsRequest) : M string :=
  let results : gmap string Data := ∅ in
  results ← (if str_in (source_type request) ["news"; "both"]
             then news ← lift (scrape_news (topics request));
                  mret (<["news" := news]> results)
             else mret results) : M (gmap string Data);
  results ← (if str_in (source_type request) ["reddit"; "both"]
             then reddit ← lift (scrape_reddit_topics (topics request));
                  mret (<["reddit" := reddit]> results)
             else mret results) : M (gmap string Data);
  let news_data := default empty_dict (results !! "news") in
  let reddit_data := default empty_dict (results !! "reddit") in
  api_key ← getenv "ANTHROPIC_API_KEY";
  lift (generate_broadcast_news api_key news_data reddit_data (topics request)).

(** Lines 38-56: Speechify first, ElevenLabs when Speechify raises. *)
Definition tts_with_fallback (news_summary : string) : M string :=
  try_except
    (call Speechify (text_to_audio_speechify (speechify_call news_summary)))
    (fun e =>
       print ("Speechify TTS failed, falling back to ElevenLabs: " ++ str e);;
       call ElevenLabs (text_to_audio_elevenlabs_sdk (elevenlabs_call news_summary))).

(** Lines 58-66: the response is built only from a non-empty path that
    exists; otherwise the function falls off its end and returns [None]. *)
Definition build_response (audio_path : string) : M (option Response) :=
  if truthy_str audio_path then
    found ← path_exists audio_path;
    if (found : bool) then
      audio_bytes ← read_bytes audio_path;
      mret (Some (audio_response audio_bytes))
    else mret None
  else mret None.

(** [async def generate_news_audio(request: NewsRequest)] *)
Definition generate_news_audio (request : NewsRequest) : M (option Response) :=
  try_except
    (news_summary ← gather_summary request;
     audio_path ← tts_with_fallback news_summary;
     build_response audio_path)
    (fun e => raise (HTTPException 500 (str e))).

End Backend.

(** ** The primary provider's entry point *)

(** [needle in haystack] for strings. *)
Fixpoint contains (needle haystack : string) : bool :=
  match haystack with
  | EmptyString => String.prefix needle haystack
  | String _ rest => String.prefix needle haystack || contains needle rest
  end.

Definition record_call (endpoint : string) (w : World) : World :=
  {| environ := environ w; files := files w; free_space := free_space w;
     network := (network w ++ [endpoint])%list; clock := clock w |}.

(** Modelled from the spec: [AudioPersistence.persist] (section 4.4), part of
    utils.py, which is not under src/.  The directory is created when absent,
    the file name carries a timestamp and the format's extension, a write
    that cannot complete raises [IOError] and leaves no file behind, and on
    success the returned path holds the bytes. *)
Definition persist (stem : string) (data : bytes) (format directory : string)
  : Effect string :=
  fun w =>
    if (length data <=? free_space w)%nat then
      let path := directory ++ "/" ++ stem ++ "_" ++ pretty (clock w) ++ "." ++ format in
      (Return path,
       {| environ := environ w;
          files := <[path := File data]> (<[directory := Directory]> (files w));
          free_space := free_space w - length data;
          network := network w; clock := S (clock w) |})
    else (Raise (OSError "[Errno 28] No space left on device"), w).

Section SpeechifyModel.

(** The remote service ([client.tts.audio.speech], called with a token) and
    the decoder of its embedded payload. *)
Variable speech_api : string -> SpeechifyArgs -> Outcome string.
Variable b64decode : string -> Outcome bytes.

(** Modelled from the spec: [utils.text_to_audio_speechify] (sections 4.2 and
    6: [synthesize_primary]), which is not under src/; the error raised
    without a credential is the one src/test_speechify_migration.py expects
    ([ValueError], matching "Speechify API key is required").  The
    credential is checked first, then the remote service is called, its
    payload decoded and the bytes persisted. *)
Definition text_to_audio_speechify_model (a : SpeechifyArgs) : Effect string :=
  fun w =>
    match environ w !! "SPEECHIFY_API_KEY" with
    | None => (Raise (ValueError "Speechify API key is required"), w)
    | Some api_key =>
        let w1 := record_call "speechify:tts.audio.speech" w in
        match speech_api api_key a with
        | Raise e => (Raise e, w1)
        | Return audio_data =>
            match b64decode audio_data with
            | Raise e => (Raise e, w1)
            | Return audio_bytes =>
                persist "speechify_tts" audio_bytes (audio_format a) (output_dir a) w1
            end
        end
    end.

End SpeechifyModel.

(** ** What the handler expects of a provider (specification, section 4.4) *)

(** A provider that returns hands back a non-empty path that exists. *)
Definition returns_written_path {A} (provider : A -> Effect string) : Prop :=
  forall a w p w',
    provider a w = (Return p, w') -> p <> "" /\ is_Some (files w' !! p).

(** A provider that raises leaves the files as they were. *)
Definition fails_without_writing {A} (provider : A -> Effect string) : Prop :=
  forall a w e w', provider a w = (Raise e, w') -> files w' = files w.

(** ** Test doubles, after the mocks of src/test_speechify_migration.py *)

Definition fake_audio_data : bytes := list_byte_of_string "fake_audio_data".

Definition fake_audio_chunk : bytes := list_byte_of_string "chunk".

(** [mock_response.audio_data = base64.b64encode(b"fake_audio_data").decode()] *)
Definition mock_speech_api : string -> SpeechifyArgs -> Outcome string :=
  fun _ _ => Return "ZmFrZV9hdWRpb19kYXRh".


Definition mock_b64decode : string -> Outcome bytes :=
  fun _ => Return fake_audio_data.

(** The secondary provider with a mocked client whose stream is one chunk. *)
Definition mock_elevenlabs : ElevenLabsArgs -> Effect string :=
  fun a w =>
    persist "tts" fake_audio_chunk "mp3" (el_output_dir a)
            (record_call "elevenlabs:text_to_speech.convert" w).

(** The secondary provider without its credential. *)
Definition elevenlabs_no_key : ElevenLabsArgs -> Effect string :=
  fun _ w => (Raise (ValueError "ElevenLabs API key is required"), w).

Definition mock_scraper : list string -> Effect unit :=
  fun _ w => (Return tt, record_call "scraper" w).

Definition mock_summariser : option string -> unit -> unit -> list string -> Effect string :=
  fun _ _ _ _ w => (Return "Top story.", record_call "llm" w).

Definition mock_request : NewsRequest := {| topics := ["ai"]; source_type := "both" |}.

(** A fresh process without any credential, and one with the primary
    provider's credential. *)
Definition bare_world : World :=
  {| environ := ∅; files := ∅; free_space := 1000; network := []; clock := 0 |}.


(** The same with room on the disk for the secondary provider's chunk only. *)
Definition cramped_world : World :=
  {| environ := {[ "SPEECHIFY_API_KEY" := "test_key" ]}; files := ∅;
     free_space := 10; network := []; clock := 0 |}.

Definition start (w : World) : Run := {| world := w; invoked := []; stdout := [] |}.

(** The primary provider with a mocked client, and with a client that
    raises. *)
Definition mock_speechify : SpeechifyArgs -> Effect string :=
  text_to_audio_speechify_model mock_speech_api mock_b64decode.


(** The handler over the mocked scrapers and summariser. *)
Definition mock_handler (speechify : SpeechifyArgs -> Effect string)
    (elevenlabs : ElevenLabsArgs -> Effect string) : NewsRequest -> M (option Response) :=
  generate_news_audio tt mock_scraper mock_scraper mock_summariser speechify elevenlabs.

(** The run once the mocked summary of [mock_request] has been produced. *)
Definition after_summary (w : World) : Run :=
  snd (gather_summary tt mock_scraper mock_scraper mock_summariser mock_request (start w)).

(** The same voice with another gender attribute. *)
Definition with_gender (voice : Voice) (new_gender : string) : Voice :=
  {| gender := new_gender; tags := tags voice; models := models voice |}.

(** A voice with an English-only and a French-only model. *)
Definition two_model_voice : Voice :=
  {| gender := "female"; tags := [];
     models := [ {| name := "simba-english"; languages := [ {| locale := "en-US" |} ] |};
                 {| name := "simba-french"; languages := [ {| locale := "fr-FR" |} ] |} ] |}.




(** The newline character, and [s * n] for a string and a count. *)
Definition nl : string := String (ascii_of_nat 10) "".

Fixpoint str_mul (s : string) (n : nat) : string :=
  match n with
  | O => ""
  | S n' => s ++ str_mul s n'
  end.

(** The run [r] after the given lines have been printed. *)
Definition emit (lines : list string) (r : Run) : Run :=
  {| world := world r; invoked := invoked r; stdout := (stdout r ++ lines)%list |}.

(** ** The test script src/test_speechify_simple.py *)

Module TestSimple.

(** [len(xs) == 1 and xs[0] == expected], as the test's assertions read. *)
Definition single (xs : list string) (expected : string) : bool :=
  Nat.eqb (length xs) 1 && String.eqb (nth 0 xs "") expected.

(** Lines 208-214: the loop of [main] over the tests, with its counter.  A
    test that raises is reported and not counted, and the loop goes on. *)
Fixpoint run_tests (tests : list (string * M bool)) (passed : nat) : M nat :=
  match tests with
  | [] => ret passed
  | (test_name, test_func) :: rest =>
      print (nl ++ "🔍 " ++ test_name ++ ":");;
      passed ← try_except
                 (ok ← test_func; mret (if (ok : bool) then S passed else passed))
                 (fun e =>
                    print ("❌ " ++ test_name ++ " failed with exception: " ++ str e);;
                    mret passed);
      run_tests rest passed
  end.

(** Every test of the list returns [True], each one running in the run the
    previous one left. *)
Fixpoint all_pass (tests : list (string * M bool)) (r : Run) : Prop :=
  match tests with
  | [] => True
  | (test_name, test_func) :: rest =>
      exists r',
        test_func (snd (print (nl ++ "🔍 " ++ test_name ++ ":") r)) = (Return true, r')
        /\ all_pass rest r'
  end.

(** A test that returns [True] in every run. *)
Definition always_passes (test_func : M bool) : Prop :=
  forall r, exists r', test_func r = (Return true, r').

Section SimpleTests.

(** The optional SDK: whether its import succeeded (lines 37-43), its client
    constructor, its options constructor, the speech call of a client, and
    the base64 decoder. *)
Variable SPEECHIFY_AVAILABLE : bool.
Context {Client Options : Type}.
Variable Speechify_client : string -> Effect Client.
Variable GetSpeechOptionsRequest : bool -> bool -> Effect Options.
Variable speech : Client -> string -> string -> string -> string -> Options -> string
                  -> Effect string.
Variable b64decode : string -> Effect bytes.

(** Lines 45-52. *)
Definition test_speechify_import : M bool :=
  if negb SPEECHIFY_AVAILABLE then
    print "❌ Speechify API not available";; mret false
  else
    print "✅ Speechify API imported successfully";; mret true.

(** Lines 54-67: a constructor that raises is reported and accepted. *)
Definition test_speechify_client_creation : M bool :=
  if negb SPEECHIFY_AVAILABLE then
    print "❌ Speechify API not available";; mret false
  else
    try_except
      (client ← lift (Speechify_client "test_token");
       print "✅ Speechify client created successfully";; mret true)
      (fun e =>
         print ("⚠️  Speechify client creation failed (expected without real API key): "
                ++ str e);;
         mret true).

(** Lines 69-84. *)
Definition test_speechify_options : M bool :=
  if negb SPEECHIFY_AVAILABLE then
    print "❌ Speechify API not available";; mret false
  else
    try_except
      (options ← lift (GetSpeechOptionsRequest true true);
       print "✅ Speechify options created successfully";; mret true)
      (fun e =>
         print ("❌ Speechify options creation failed: " ++ str e);; mret false).

(** Lines 86-124.  The name [Speechify] called on line 102 is the one the
    module imported, which [patch('speechify.Speechify')] does not rebind. *)
Definition test_speechify_tts_function : M bool :=
  if negb SPEECHIFY_AVAILABLE then
    print "❌ Speechify API not available";; mret false
  else
    try_except
      (client ← lift (Speechify_client "test_token");
       options ← lift (GetSpeechOptionsRequest true true);
       audio_data ← lift (speech client "mp3" "Test text" "en-US" "simba-english"
                                 options "scott");
       audio_bytes ← lift (b64decode audio_data);
       print "✅ Speechify TTS function works correctly";;
       print ("   - Audio data length: " ++ pretty (length (audio_bytes : bytes))
              ++ " bytes");;
       mret true)
      (fun e => print ("❌ Speechify TTS function failed: " ++ str e);; mret false).

(** Lines 126-178, [test_voice_filtering_logic]: the four filters of the
    test and its assertions; a failed assertion raises [AssertionError],
    whose text is empty. *)
Definition run_test_voice_filtering_logic : M bool :=
  let voices := [mock_voice1; mock_voice2] in
  let male_voices := filter_voice_models voices (Some "male") None None in
  let female_voices := filter_voice_models voices (Some "female") None None in
  let en_voices := filter_voice_models voices None (Some "en-US") None in
  let deep_voices := filter_voice_models voices None None (Some ["timbre:deep"]) in
  if single male_voices "voice1" && single female_voices "voice2"
     && single en_voices "voice1" && single deep_voices "voice1"
  then print "✅ Voice filtering logic works correctly";; mret true
  else raise (Exception "").

(** Lines 180-189: the test passes with and without the key. *)
Definition test_environment_variable : M bool :=
  api_key ← getenv "SPEECHIFY_API_KEY";
  match api_key with
  | Some key =>
      if truthy_str key then
        print ("✅ SPEECHIFY_API_KEY is set: " ++ String.substring 0 10 key ++ "...");;
        mret true
      else
        print "⚠️  SPEECHIFY_API_KEY not set (this is expected for testing)";; mret true
  | None =>
      print "⚠️  SPEECHIFY_API_KEY not set (this is expected for testing)";; mret true
  end.

(** Lines 196-203. *)
Definition simple_tests : list (string * M bool) :=
  [ ("Import Test", test_speechify_import);
    ("Client Creation", test_speechify_client_creation);
    ("Options Creation", test_speechify_options);
    ("TTS Function", test_speechify_tts_function);
    ("Voice Filtering", run_test_voice_filtering_logic);
    ("Environment Variable", test_environment_variable) ].

(** Lines 216-230: the report of [main]. *)
Definition report (passed total : nat) : M unit :=
  print (nl ++ str_mul "=" 50);;
  print ("📊 Test Results: " ++ pretty passed ++ "/" ++ pretty total ++ " tests passed");;
  (if Nat.eqb passed total
   then print "🎉 All tests passed! Speechify migration is ready."
   else print "⚠️  Some tests failed. Check the output above.");;
  (if negb SPEECHIFY_AVAILABLE
   then print (nl ++ "📝 To install Speechify API:");;
        print "   pip install speechify-api"
   else mret tt);;
  print (nl ++ "📝 To set up your API key:");;
  print "   export SPEECHIFY_API_KEY='your_api_key_here'";;
  print "   Get your API key at: https://console.sws.speechify.com/signup".

(** Lines 191-230. *)
Definition main : M unit :=
  print "🧪 Testing Speechify TTS Migration";;
  print (str_mul "=" 50);;
  passed ← run_tests simple_tests 0;
  report passed (length simple_tests).

End SimpleTests.

End TestSimple.

(** ** The example script src/speechify_example.py *)

Module ExampleScript.

(** [c.upper()] for one ASCII character, and [s.upper()]. *)
Definition upper_ascii (c : ascii) : ascii :=
  let n := nat_of_ascii c in
  if (97 <=? n)%nat && (n <=? 122)%nat then ascii_of_nat (n - 32) else c.

Fixpoint upper (s : string) : string :=
  match s with
  | EmptyString => EmptyString
  | String c rest => String (upper_ascii c) (upper rest)
  end.

(** The keyword arguments a call of [text_to_audio_speechify] passes; an
    argument that is left out is [None] and takes the callee's default. *)
Record SpeechifyKwargs := {
  kw_text : string;
  kw_voice_id : option string;
  kw_model : option string;
  kw_audio_format : option string;
  kw_language : option string
}.

Section Examples.

(** Whether [from utils import ...] succeeded (lines 10-16), and the
    imported entry point. *)
Variable UTILS_AVAILABLE : bool.
Variable text_to_audio_speechify : SpeechifyKwargs -> Effect string.

(** Lines 79-84. *)
Definition languages : list (string * string) :=
  [ ("en-US", "Hello, this is English text.");
    ("fr-FR", "Bonjour, ceci est du texte français.");
    ("de-DE", "Hallo, das ist deutscher Text.");
    ("es-ES", "Hola, este es texto en español.") ].

(** Lines 89-93: [text_to_audio_speechify(text=text, language=lang_code,
    model="simba-multilingual")]. *)
Definition multilingual_call (entry : string * string) : SpeechifyKwargs :=
  {| kw_text := snd entry; kw_voice_id := None; kw_model := Some "simba-multilingual";
     kw_audio_format := None; kw_language := Some (fst entry) |}.

(** Lines 86-97: one attempt per language, each in its own [try]. *)
Fixpoint multilingual_loop (entries : list (string * string)) : M unit :=
  match entries with
  | [] => ret tt
  | (lang_code, text) :: rest =>
      try_except
        (print ("🌍 Testing " ++ lang_code ++ ": " ++ text);;
         audio_path ← call Speechify
                        (text_to_audio_speechify (multilingual_call (lang_code, text)));
         print ("✅ " ++ lang_code ++ " audio generated: " ++ audio_path))
        (fun e => print ("❌ " ++ lang_code ++ " failed: " ++ str e));;
      multilingual_loop rest
  end.

(** Lines 69-97. *)
Definition example_multilingual_tts : M unit :=
  print (nl ++ "🎤 Example 3: Multilingual TTS Generation");;
  print (str_mul "-" 40);;
  if negb UTILS_AVAILABLE then
    print "❌ Utils not available - skipping example"
  else multilingual_loop languages.

(** Line 142. *)
Definition formats : list string := ["mp3"; "wav"].

(** Lines 147-150: [text_to_audio_speechify(text=text, audio_format=fmt)]. *)
Definition format_call (fmt : string) : SpeechifyKwargs :=
  {| kw_text := "Testing different audio formats with Speechify.";
     kw_voice_id := None; kw_model := None;
     kw_audio_format := Some fmt; kw_language := None |}.

(** Lines 144-154: one attempt per format, each in its own [try]. *)
Fixpoint formats_loop (fmts : list string) : M unit :=
  match fmts with
  | [] => ret tt
  | fmt :: rest =>
      try_except
        (print ("🔊 Testing " ++ upper fmt ++ " format...");;
         audio_path ← call Speechify (text_to_audio_speechify (format_call fmt));
         print ("✅ " ++ upper fmt ++ " audio generated: " ++ audio_path))
        (fun e => print ("❌ " ++ upper fmt ++ " failed: " ++ str e));;
      formats_loop rest
  end.

(** Lines 132-154. *)
Definition example_different_formats : M unit :=
  print (nl ++ "🎤 Example 5: Different Audio Formats");;
  print (str_mul "-" 40);;
  if negb UTILS_AVAILABLE then
    print "❌ Utils not available - skipping example"
  else formats_loop formats.

End Examples.

(** The world after the entry point has been tried on each call in turn,
    whatever each attempt returned or raised. *)
Definition attempts (provider : SpeechifyKwargs -> Effect string)
    (calls : list SpeechifyKwargs) (w : World) : World :=
  fold_left (fun w kwargs => snd (provider kwargs w)) calls w.

(** An entry point that fails for French and writes nothing otherwise. *)
Definition no_french : SpeechifyKwargs -> Effect string :=
  fun kwargs w =>
    match kw_language kwargs with
    | Some "fr-FR" => (Raise (Exception "unsupported language"), record_call "fr" w)
    | _ => (Return "audio/out.mp3", record_call "ok" w)
    end.

End ExampleScript.

(** * Properties of the voice filter *)

Lemma lower_ascii_idem (c : ascii) : lower_ascii (lower_ascii c) = lower_ascii c.
Proof. destruct c as [[] [] [] [] [] [] [] []]; reflexivity. Qed.

Lemma lower_idem (s : string) : lower (lower s) = lower s.
Proof.
  induction s as [| c rest IH]; simpl; [reflexivity|].
  now rewrite lower_ascii_idem, IH.
Qed.

Lemma truthy_str_true (s : string) : truthy_str s = true <-> s <> "".
Proof.
  unfold truthy_str. rewrite negb_true_iff.
  destruct (String.eqb_spec s ""); split; congruence.
Qed.

Lemma str_in_In (x : string) (xs : list string) : str_in x xs = true <-> In x xs.
Proof.
  unfold str_in. rewrite existsb_exists. split.
  - intros (y & Hy & Heq). apply String.eqb_eq in Heq. now subst.
  - intros H. exists x. split; [assumption | apply String.eqb_refl].
Qed.

Lemma append_model_names_spec (results : list string) (voice : Voice) :
  append_model_names results voice = (results ++ model_names voice)%list.
Proof.
  unfold append_model_names, model_names.
  revert results. induction (models voice) as [| m ms IH]; intros results; simpl.
  - now rewrite app_nil_r.
  - rewrite IH. now rewrite <- app_assoc.
Qed.

Lemma filter_loop_spec voices g loc ts (results : list string) :
  filter_loop voices g loc ts results
  = (results ++ flat_map model_names (selected voices g loc ts))%list.
Proof.
  revert results. unfold selected.
  induction voices as [| voice rest IH]; intros results; simpl.
  - now rewrite app_nil_r.
  - unfold qualifies.
    destruct (gender_skip g voice); simpl; [apply IH|].
    destruct (locale_skip loc voice); simpl; [apply IH|].
    destruct (tags_skip ts voice); simpl; [apply IH|].
    rewrite IH, append_model_names_spec. now rewrite <- app_assoc.
Qed.

Lemma filter_voice_models_spec voices g loc ts :
  filter_voice_models voices g loc ts = flat_map model_names (selected voices g loc ts).
Proof. unfold filter_voice_models. now rewrite filter_loop_spec. Qed.

Lemma filter_voice_models_app vs1 vs2 g loc ts :
  filter_voice_models (vs1 ++ vs2) g loc ts
  = (filter_voice_models vs1 g loc ts ++ filter_voice_models vs2 g loc ts)%list.
Proof.
  rewrite !filter_voice_models_spec. unfold selected.
  now rewrite List.filter_app, flat_map_app.
Qed.

Lemma filter_voice_models_one voice g loc ts :
  filter_voice_models [voice] g loc ts
  = if qualifies g loc ts voice then model_names voice else [].
Proof.
  rewrite filter_voice_models_spec. unfold selected. simpl.
  destruct (qualifies g loc ts voice); simpl; [apply app_nil_r | reflexivity].
Qed.

(** Filters that agree on every voice select the same voices. *)
Lemma selected_ext voices g loc ts g' loc' ts' :
  (forall voice, qualifies g loc ts voice = qualifies g' loc' ts' voice) ->
  selected voices g loc ts = selected voices g' loc' ts'.
Proof. intros H. unfold selected. now apply List.filter_ext. Qed.

(** A weaker filter yields a super-sequence of the names. *)
Lemma flat_map_filter_sublist (p q : Voice -> bool) (voices : list Voice) :
  (forall voice, p voice = true -> q voice = true) ->
  sublist (flat_map model_names (List.filter p voices))
          (flat_map model_names (List.filter q voices)).
Proof.
  intros Hpq. induction voices as [| voice rest IH]; simpl; [constructor|].
  destruct (p voice) eqn:Hp.
  - rewrite (Hpq _ Hp). simpl. now apply sublist_app.
  - destruct (q voice); simpl; [now apply sublist_inserts_l | assumption].
Qed.

Lemma sublist_In {A} (l k : list A) (x : A) : sublist l k -> In x l -> In x k.
Proof.
  intros Hs Hx. apply list_elem_of_In. apply list_elem_of_In in Hx.
  eapply sublist_subseteq; eassumption.
Qed.

(** When no model name occurs twice in the catalogue, a name identifies
    the voice it belongs to. *)
Lemma NoDup_app_disjoint {A} (l k : list A) (x : A) :
  List.NoDup (l ++ k) -> In x l -> ~ In x k.
Proof.
  induction l as [| y ys IH]; simpl; [tauto|].
  intros Hnd [-> | Hx] Hk.
  - inversion Hnd as [| ? ? Hy _]; subst. apply Hy, in_or_app. now right.
  - inversion Hnd; subst. now apply IH.
Qed.

Lemma name_owner_unique (voices : list Voice) (v1 v2 : Voice) (n : string) :
  List.NoDup (flat_map model_names voices) ->
  In v1 voices -> In v2 voices ->
  In n (model_names v1) -> In n (model_names v2) -> v1 = v2.
Proof.
  induction voices as [| v rest IH]; simpl; [tauto|].
  intros Hnd H1 H2 Hn1 Hn2.
  pose proof (NoDup_app_disjoint _ _ n Hnd) as Hdisj.
  apply List.NoDup_app_remove_l in Hnd.
  destruct H1 as [<- | H1], H2 as [<- | H2].
  - reflexivity.
  - exfalso. apply (Hdisj Hn1). apply in_flat_map. exists v2. split; assumption.
  - exfalso. apply (Hdisj Hn2). apply in_flat_map. exists v1. split; assumption.
  - now apply IH.
Qed.

Lemma lower_empty (s : string) : lower s = "" <-> s = "".
Proof. destruct s; simpl; split; congruence. Qed.

Lemma truthy_str_lower (g1 g2 : string) :
  lower g1 = lower g2 -> truthy_str g1 = truthy_str g2.
Proof.
  intros H. unfold truthy_str. f_equal.
  destruct (String.eqb_spec g1 ""), (String.eqb_spec g2 ""); try reflexivity; exfalso.
  - subst g1. simpl in H. symmetry in H. apply (proj1 (lower_empty _)) in H. congruence.
  - subst g2. simpl in H. apply (proj1 (lower_empty _)) in H. congruence.
Qed.

Lemma all_tags_spec (ts : list string) (voice : Voice) :
  all_tags ts voice = true <-> forall tag, In tag ts -> In tag (tags voice).
Proof.
  unfold all_tags. rewrite forallb_forall.
  split; intros H tag Hin; apply str_in_In; now apply H.
Qed.

Lemma any_locale_spec (loc : string) (voice : Voice) :
  any_locale loc voice = true <->
  exists m lang, In m (models voice) /\ In lang (languages m) /\ locale lang = loc.
Proof.
  unfold any_locale. rewrite existsb_exists. split.
  - intros (m & Hm & Hex). apply existsb_exists in Hex as (lang & Hl & Heq).
    apply String.eqb_eq in Heq. now exists m, lang.
  - intros (m & lang & Hm & Hl & Heq). exists m. split; [assumption|].
    apply existsb_exists. exists lang. split; [assumption|].
    now apply String.eqb_eq.
Qed.

Lemma length_flat_map_names (voices : list Voice) :
  length (flat_map model_names voices)
  = list_sum (map (fun voice => length (models voice)) voices).
Proof.
  induction voices as [| v rest IH]; simpl; [reflexivity|].
  rewrite length_app, IH. unfold model_names. now rewrite length_map.
Qed.

(** The test's assertions, replayed on the model. *)
Example test_voice_filtering_logic :
  filter_voice_models [mock_voice1; mock_voice2] (Some "male") None None = ["voice1"]
  /\ filter_voice_models [mock_voice1; mock_voice2] (Some "female") None None = ["voice2"]
  /\ filter_voice_models [mock_voice1; mock_voice2] None (Some "en-US") None = ["voice1"]
  /\ filter_voice_models [mock_voice1; mock_voice2] None None (Some ["timbre:deep"]) = ["voice1"]
  /\ filter_voice_models [mock_voice1; mock_voice2] (Some "male") (Some "en-US") None = ["voice1"].
Proof. repeat split; reflexivity. Qed.

(** C1, as stated, fails on returned names: two voices that share a model
    name put that name into the gender-only result and into the locale-only
    result (and into the unfiltered one), yet no voice passes both criteria
    and the combined result is empty. *)
Lemma shared_name_not_in_combined_result :
  In "simba-multilingual" (filter_voice_models [shared_a; shared_b] (Some "male") None None)
  /\ In "simba-multilingual" (filter_voice_models [shared_a; shared_b] None (Some "en-US") None)
  /\ In "simba-multilingual" (filter_voice_models [shared_a; shared_b] None None None)
  /\ filter_voice_models [shared_a; shared_b] (Some "male") (Some "en-US") None = [].
Proof. repeat split; vm_compute; auto. Qed.

(** C1 (amended).  The result is the concatenated model names of exactly the
    voices that pass every per-criterion filter: the intersection is taken
    over voices, not over returned names.  Every returned name occurs in each
    single-criterion result, and the converse holds when no model name
    occurs twice in the catalogue.  Omitting a criterion never narrows the
    result: the result is a subsequence of the one obtained without it. *)
Theorem filter_intersects_over_voices voices g loc ts :
  filter_voice_models voices g loc ts = flat_map model_names (selected voices g loc ts)
  /\ (forall voice,
        In voice (selected voices g loc ts) <->
        In voice (selected voices g None None)
        /\ In voice (selected voices None loc None)
        /\ In voice (selected voices None None ts))
  /\ (forall n,
        In n (filter_voice_models voices g loc ts) ->
        In n (filter_voice_models voices g None None)
        /\ In n (filter_voice_models voices None loc None)
        /\ In n (filter_voice_models voices None None ts))
  /\ (List.NoDup (flat_map model_names voices) ->
      forall n,
        In n (filter_voice_models voices g None None)
        /\ In n (filter_voice_models voices None loc None)
        /\ In n (filter_voice_models voices None None ts) ->
        In n (filter_voice_models voices g loc ts))
  /\ sublist (filter_voice_models voices g loc ts) (filter_voice_models voices None loc ts)
  /\ sublist (filter_voice_models voices g loc ts) (filter_voice_models voices g None ts)
  /\ sublist (filter_voice_models voices g loc ts) (filter_voice_models voices g loc None).
Proof.
  assert (Hsel : forall voice,
             In voice (selected voices g loc ts) <->
             In voice (selected voices g None None)
             /\ In voice (selected voices None loc None)
             /\ In voice (selected voices None None ts)).
  { intros voice. unfold selected, qualifies. rewrite !filter_In. simpl.
    rewrite !andb_true_r, !andb_true_iff. tauto. }
  assert (Hsub : forall g' loc' ts',
             (forall voice, qualifies g loc ts voice = true ->
                            qualifies g' loc' ts' voice = true) ->
             sublist (filter_voice_models voices g loc ts)
                     (filter_voice_models voices g' loc' ts')).
  { intros g' loc' ts' H. rewrite !filter_voice_models_spec.
    now apply flat_map_filter_sublist. }
  split; [apply filter_voice_models_spec|].
  split; [exact Hsel|].
  split; [|split]; [| |repeat split].
  - intros n Hn.
    repeat split; eapply sublist_In; try exact Hn; apply Hsub;
      intros voice; unfold qualifies; simpl; rewrite ?andb_true_r, !andb_true_iff; tauto.
  - intros Hnd n (Hg & Hl & Ht).
    rewrite filter_voice_models_spec in *.
    apply in_flat_map in Hg as (v1 & Hv1 & Hn1).
    apply in_flat_map in Hl as (v2 & Hv2 & Hn2).
    apply in_flat_map in Ht as (v3 & Hv3 & Hn3).
    assert (In v1 voices /\ In v2 voices /\ In v3 voices) as (I1 & I2 & I3).
    { unfold selected in *. rewrite filter_In in Hv1, Hv2, Hv3. tauto. }
    assert (v2 = v1) by (eapply name_owner_unique; eassumption).
    assert (v3 = v1) by (eapply name_owner_unique; eassumption).
    subst v2 v3. apply in_flat_map. exists v1. split; [|assumption].
    apply Hsel. tauto.
  - apply Hsub. intros voice. unfold qualifies. simpl.
    rewrite !andb_true_iff. tauto.
  - apply Hsub. intros voice. unfold qualifies. simpl.
    rewrite !andb_true_iff. tauto.
  - apply Hsub. intros voice. unfold qualifies. simpl.
    rewrite ?andb_true_r, !andb_true_iff. tauto.
Qed.

(** C6.  Filtering by gender "MALE" and by gender "male" gives the same
    result on every catalogue; more generally only the lower-cased form of
    the requested gender matters, and a voice passes a (non-empty) gender
    criterion exactly when its lower-cased gender equals the lower-cased
    request. *)
Theorem gender_match_ignores_case :
  (forall voices loc ts,
      filter_voice_models voices (Some "MALE") loc ts
      = filter_voice_models voices (Some "male") loc ts)
  /\ (forall voices g1 g2 loc ts,
         lower g1 = lower g2 ->
         filter_voice_models voices (Some g1) loc ts
         = filter_voice_models voices (Some g2) loc ts)
  /\ (forall voice c rest,
         gender_skip (Some (String c rest)) voice = false
         <-> lower (gender voice) = lower (String c rest))
  /\ (forall voice c rest,
         filter_voice_models [voice] (Some (String c rest)) None None
         = if String.eqb (lower (gender voice)) (lower (String c rest))
           then model_names voice else []).
Proof.
  assert (Hgen : forall voices g1 g2 loc ts,
             lower g1 = lower g2 ->
             filter_voice_models voices (Some g1) loc ts
             = filter_voice_models voices (Some g2) loc ts).
  { intros voices g1 g2 loc ts H. rewrite !filter_voice_models_spec.
    apply (f_equal (flat_map model_names)). apply selected_ext. intros voice. unfold qualifies, gender_skip.
    now rewrite (truthy_str_lower _ _ H), H. }
  split; [|split; [exact Hgen | split]].
  - intros voices loc ts. now apply Hgen.
  - intros voice c rest. unfold gender_skip.
    change (truthy_str (String c rest)) with true. rewrite andb_true_l, negb_false_iff.
    apply String.eqb_eq.
  - intros voice c rest. rewrite filter_voice_models_one.
    unfold qualifies, gender_skip, locale_skip, tags_skip.
    change (truthy_str (String c rest)) with true.
    rewrite andb_true_l, negb_involutive. simpl. now rewrite !andb_true_r.
Qed.

(** C7.  A voice passes the tag criterion exactly when every requested tag
    is an element of its tag list; tags it carries beyond the requested
    ones never disqualify it.  (The equivalence also holds for the empty
    request, which every voice passes.) *)
Theorem tag_subset_law voice (ts : list string) :
  (tags_skip (Some ts) voice = false <-> forall tag, In tag ts -> In tag (tags voice))
  /\ filter_voice_models [voice] None None (Some ts)
     = (if tags_skip (Some ts) voice then [] else model_names voice)
  /\ (forall more_tags,
         (forall tag, In tag (tags voice) -> In tag more_tags) ->
         tags_skip (Some ts) voice = false ->
         tags_skip (Some ts) (with_tags voice more_tags) = false).
Proof.
  assert (Hiff : forall v, tags_skip (Some ts) v = false
                           <-> forall tag, In tag ts -> In tag (tags v)).
  { intros v. unfold tags_skip. destruct ts as [| t ts']; simpl truthy_list.
    - simpl. split; [intros _ tag [] | reflexivity].
    - rewrite andb_true_l, negb_false_iff. apply all_tags_spec. }
  split; [apply Hiff | split].
  - rewrite filter_voice_models_one. unfold qualifies.
    change (gender_skip None voice) with false.
    change (locale_skip None voice) with false.
    now destruct (tags_skip (Some ts) voice).
  - intros more_tags Hsub Hpass. apply Hiff. intros tag Hin. simpl.
    apply Hsub. now apply (proj1 (Hiff voice) Hpass).
Qed.

(** C8, as stated, fails for the empty locale: the guard [if locale:] is
    not taken, so a voice none of whose languages has locale "" is returned
    all the same. *)
Lemma empty_locale_selects_every_voice :
  filter_voice_models [mock_voice2] None (Some "") None = ["voice2"]
  /\ locale_skip (Some "") mock_voice2 = false
  /\ any_locale "" mock_voice2 = false.
Proof. repeat split. Qed.

(** C8 (amended).  For a non-empty requested locale, a voice passes the
    locale criterion exactly when one of its models has a language whose
    locale equals the request (string equality, so case matters), and its
    model names are returned on that condition; the empty locale is treated
    like an omitted one. *)
Theorem locale_criterion_exact voice (loc : string) :
  loc <> "" ->
  (locale_skip (Some loc) voice = false <->
   exists m lang, In m (models voice) /\ In lang (languages m) /\ locale lang = loc)
  /\ filter_voice_models [voice] None (Some loc) None
     = (if any_locale loc voice then model_names voice else [])
  /\ (forall voices g ts,
         filter_voice_models voices g (Some "") ts = filter_voice_models voices g None ts).
Proof.
  intros Hloc. apply truthy_str_true in Hloc.
  split; [|split].
  - unfold locale_skip. rewrite Hloc, andb_true_l, negb_false_iff.
    apply any_locale_spec.
  - rewrite filter_voice_models_one. unfold qualifies, locale_skip. simpl.
    rewrite Hloc, andb_true_l, negb_involutive. now rewrite andb_true_r.
  - intros voices g ts. rewrite !filter_voice_models_spec.
    apply (f_equal (flat_map model_names)). now apply selected_ext.
Qed.

Lemma locale_criterion_exact_witness :
  "en-US" <> ""
  /\ (locale_skip (Some "en-US") mock_voice1 = false <->
      exists m lang,
        In m (models mock_voice1) /\ In lang (languages m) /\ locale lang = "en-US")
  /\ filter_voice_models [mock_voice1] None (Some "en-US") None
     = (if any_locale "en-US" mock_voice1 then model_names mock_voice1 else []).
Proof.
  assert (H : "en-US" <> "") by discriminate.
  destruct (locale_criterion_exact mock_voice1 "en-US" H) as (Hiff & Hres & _).
  split; [exact H | split; [exact Hiff | exact Hres]].
Defined.

(** C9.  The result is a list of model names: the names of all models of
    the qualifying voices, voice after voice and model after model in
    catalogue order, with repetitions kept. *)
Theorem result_lists_model_names_in_order voices g loc ts :
  filter_voice_models voices g loc ts
  = flat_map (fun voice => map name (models voice))
             (List.filter (qualifies g loc ts) voices)
  /\ (forall more,
         filter_voice_models (voices ++ more) g loc ts
         = (filter_voice_models voices g loc ts ++ filter_voice_models more g loc ts)%list)
  /\ length (filter_voice_models voices g loc ts)
     = list_sum (map (fun voice => length (models voice)) (selected voices g loc ts))
  /\ filter_voice_models [shared_a; shared_b] None None None
     = ["simba-multilingual"; "simba-multilingual"].
Proof.
  split; [apply filter_voice_models_spec | split; [| split]].
  - intros more. apply filter_voice_models_app.
  - rewrite filter_voice_models_spec. apply length_flat_map_names.
  - reflexivity.
Qed.

(** C10.  A falsy criterion value is the same as no criterion: the empty
    string as gender and the empty list as tags leave the result as it is
    without them. *)
Theorem falsy_criterion_is_omitted voices g loc ts :
  filter_voice_models voices (Some "") loc ts = filter_voice_models voices None loc ts
  /\ filter_voice_models voices g loc (Some []) = filter_voice_models voices g loc None.
Proof.
  split; rewrite !filter_voice_models_spec;
    apply (f_equal (flat_map model_names)); now apply selected_ext.
Qed.

(** * Properties of the dispatcher and of the handler *)

Lemma append_nonempty (a b : string) : b <> "" -> a ++ b <> "".
Proof. intros Hb. destruct a; simpl; [assumption | discriminate]. Qed.

(** The persistence step keeps both promises of section 4.4. *)
Lemma persist_returns_written_path stem data format directory w p w' :
  persist stem data format directory w = (Return p, w') ->
  p <> "" /\ files w' !! p = Some (File data).
Proof.
  unfold persist. destruct (length data <=? free_space w)%nat; [|discriminate].
  intros [= <- <-]. split.
  - apply append_nonempty. discriminate.
  - simpl. apply lookup_insert_eq.
Qed.

Lemma persist_fails_without_writing stem data format directory w e w' :
  persist stem data format directory w = (Raise e, w') -> w' = w.
Proof.
  unfold persist. destruct (length data <=? free_space w)%nat; [discriminate|].
  now intros [= _ <-].
Qed.

Lemma speechify_model_returns_written_path api b64 :
  returns_written_path (text_to_audio_speechify_model api b64).
Proof.
  intros a w p w'. unfold text_to_audio_speechify_model.
  destruct (environ w !! "SPEECHIFY_API_KEY"); [|discriminate].
  destruct (api _ a); [|discriminate].
  destruct (b64 _); [|discriminate].
  intros H. apply persist_returns_written_path in H as [Hp Hf].
  split; [assumption | now rewrite Hf].
Qed.


Lemma mock_elevenlabs_returns_written_path : returns_written_path mock_elevenlabs.
Proof.
  intros a w p w' H. apply persist_returns_written_path in H as [Hp Hf].
  split; [assumption | now rewrite Hf].
Qed.

Lemma mock_elevenlabs_fails_without_writing : fails_without_writing mock_elevenlabs.
Proof.
  intros a w e w' H. apply persist_fails_without_writing in H. now subst.
Qed.

Lemma elevenlabs_no_key_returns_written_path : returns_written_path elevenlabs_no_key.
Proof. intros a w p w'. discriminate. Qed.


Section Dispatch.

Context {Data : Type} (empty_dict : Data).
Variable scrape_news : list string -> Effect Data.
Variable scrape_reddit_topics : list string -> Effect Data.
Variable generate_broadcast_news :
  option string -> Data -> Data -> list string -> Effect string.
Variable speechify : SpeechifyArgs -> Effect string.
Variable elevenlabs : ElevenLabsArgs -> Effect string.

Local Abbreviation dispatch := (tts_with_fallback speechify elevenlabs).
Local Abbreviation summary :=
  (gather_summary empty_dict scrape_news scrape_reddit_topics generate_broadcast_news).
Local Abbreviation handler :=
  (generate_news_audio empty_dict scrape_news scrape_reddit_topics
                       generate_broadcast_news speechify elevenlabs).

(** The line the handler prints before it falls back. *)
Local Abbreviation fallback_line e :=
  ("Speechify TTS failed, falling back to ElevenLabs: " ++ str e).

Lemma dispatch_first_returns news_summary r p w1 :
  speechify (speechify_call news_summary) (world r) = (Return p, w1) ->
  dispatch news_summary r
  = (Return p, {| world := w1; invoked := (invoked r ++ [Speechify])%list;
                  stdout := stdout r |}).
Proof.
  intros H. unfold tts_with_fallback, try_except, call. now rewrite H.
Qed.

Lemma dispatch_first_raises news_summary r e w1 :
  speechify (speechify_call news_summary) (world r) = (Raise e, w1) ->
  dispatch news_summary r
  = (let (o, w2) := elevenlabs (elevenlabs_call news_summary) w1 in
     (o, {| world := w2; invoked := (invoked r ++ [Speechify; ElevenLabs])%list;
            stdout := (stdout r ++ [fallback_line e])%list |})).
Proof.
  intros H. unfold tts_with_fallback, try_except, call at 1. rewrite H.
  unfold mbind, M_bind, bind, print, call. simpl.
  destruct (elevenlabs _ w1) as [o w2]. now rewrite <- app_assoc.
Qed.

Lemma handler_after_summary request r0 news_summary r1 :
  summary request r0 = (Return news_summary, r1) ->
  handler request r0
  = try_except (audio_path ← dispatch news_summary; build_response audio_path)
               (fun e => raise (HTTPException 500 (str e))) r1.
Proof.
  intros H. unfold generate_news_audio, try_except.
  unfold mbind at 1, M_bind at 1, bind at 1. now rewrite H.
Qed.

Lemma build_response_of_file audio_path r data :
  audio_path <> "" ->
  files (world r) !! audio_path = Some (File data) ->
  build_response audio_path r
  = (Return (Some (audio_response data)), r).
Proof.
  intros Hp Hf. unfold build_response.
  apply truthy_str_true in Hp. rewrite Hp.
  unfold mbind, M_bind, bind, path_exists.
  rewrite bool_decide_eq_true_2 by (rewrite Hf; eauto).
  unfold read_bytes. now rewrite Hf.
Qed.

Lemma build_response_of_directory audio_path r :
  audio_path <> "" ->
  files (world r) !! audio_path = Some Directory ->
  build_response audio_path r
  = (Raise (OSError ("[Errno 21] Is a directory: " ++ py_repr audio_path)), r).
Proof.
  intros Hp Hf. unfold build_response.
  apply truthy_str_true in Hp. rewrite Hp.
  unfold mbind, M_bind, bind, path_exists.
  rewrite bool_decide_eq_true_2 by (rewrite Hf; eauto).
  unfold read_bytes. now rewrite Hf.
Qed.


(** The response step never changes the run, and it returns [None] only
    for an empty or a missing path. *)
Lemma build_response_cases audio_path r :
  (exists data,
      files (world r) !! audio_path = Some (File data)
      /\ build_response audio_path r
         = (Return (Some (audio_response data)), r))
  \/ (exists e, build_response audio_path r = (Raise e, r))
  \/ ((audio_path = "" \/ files (world r) !! audio_path = None)
      /\ build_response audio_path r = (Return None, r)).
Proof.
  destruct (String.eqb_spec audio_path "") as [-> | Hp].
  { right. right. split; [now left | reflexivity]. }
  destruct (files (world r) !! audio_path) as [[data |] |] eqn:Hf.
  - left. exists data. split; [reflexivity | now apply build_response_of_file].
  - right. left. eexists. now apply build_response_of_directory.
  - right. right. split; [now right|].
    unfold build_response. apply truthy_str_true in Hp. rewrite Hp.
    unfold mbind, M_bind, bind, path_exists.
    rewrite bool_decide_eq_false_2; [reflexivity|]. rewrite Hf. now intros [? ?].
Qed.

(** C2.  When Speechify raises (whatever the exception) and ElevenLabs
    returns, the dispatcher returns exactly ElevenLabs' path in the world
    ElevenLabs left, having invoked these two providers and no other; when
    Speechify returns, its path is the result and it is the only provider
    invoked.  The handler's response then carries the bytes of the file at
    that path. *)
Theorem fallback_returns_second_provider_output news_summary r :
  (forall e w1 p w2,
      speechify (speechify_call news_summary) (world r) = (Raise e, w1) ->
      elevenlabs (elevenlabs_call news_summary) w1 = (Return p, w2) ->
      dispatch news_summary r
      = (Return p, {| world := w2;
                      invoked := (invoked r ++ [Speechify; ElevenLabs])%list;
                      stdout := (stdout r ++ [fallback_line e])%list |}))
  /\ (forall p w1,
         speechify (speechify_call news_summary) (world r) = (Return p, w1) ->
         dispatch news_summary r
         = (Return p, {| world := w1; invoked := (invoked r ++ [Speechify])%list;
                         stdout := stdout r |}))
  /\ (forall request r0 e w1 p w2 data,
         summary request r0 = (Return news_summary, r) ->
         speechify (speechify_call news_summary) (world r) = (Raise e, w1) ->
         elevenlabs (elevenlabs_call news_summary) w1 = (Return p, w2) ->
         p <> "" -> files w2 !! p = Some (File data) ->
         handler request r0
         = (Return (Some (audio_response data)),
            {| world := w2;
               invoked := (invoked r ++ [Speechify; ElevenLabs])%list;
               stdout := (stdout r ++ [fallback_line e])%list |})).
Proof.
  assert (Hfb : forall e w1 p w2,
             speechify (speechify_call news_summary) (world r) = (Raise e, w1) ->
             elevenlabs (elevenlabs_call news_summary) w1 = (Return p, w2) ->
             dispatch news_summary r
             = (Return p, {| world := w2;
                             invoked := (invoked r ++ [Speechify; ElevenLabs])%list;
                             stdout := (stdout r ++ [fallback_line e])%list |})).
  { intros e w1 p w2 H1 H2. rewrite (dispatch_first_raises _ _ _ _ H1). now rewrite H2. }
  split; [exact Hfb | split].
  - intros p w1 H1. now apply dispatch_first_returns.
  - intros request r0 e w1 p w2 data Hs H1 H2 Hp Hf.
    rewrite (handler_after_summary _ _ _ _ Hs).
    unfold try_except, mbind, M_bind, bind.
    rewrite (Hfb _ _ _ _ H1 H2).
    erewrite build_response_of_file; [reflexivity | exact Hp | exact Hf].
Qed.


(** C5 (amended).  An [IOError] raised by Speechify, the first provider, is
    caught like any other exception: ElevenLabs is invoked and its outcome
    is the dispatcher's.  An [IOError] is fatal for the request when the
    last provider raises it, or when the handler cannot read the file the
    dispatcher's path names; the handler then raises HTTP 500 and invokes no
    further provider. *)
Theorem io_error_fatal_only_after_last_provider news_summary r msg :
  (forall w1,
      speechify (speechify_call news_summary) (world r) = (Raise (OSError msg), w1) ->
      exists o w2,
        elevenlabs (elevenlabs_call news_summary) w1 = (o, w2)
        /\ dispatch news_summary r
           = (o, {| world := w2;
                    invoked := (invoked r ++ [Speechify; ElevenLabs])%list;
                    stdout := (stdout r ++ [fallback_line (OSError msg)])%list |}))
  /\ (forall request r0 e1 w1 w2,
         summary request r0 = (Return news_summary, r) ->
         speechify (speechify_call news_summary) (world r) = (Raise e1, w1) ->
         elevenlabs (elevenlabs_call news_summary) w1 = (Raise (OSError msg), w2) ->
         handler request r0
         = (Raise (HTTPException 500 msg),
            {| world := w2;
               invoked := (invoked r ++ [Speechify; ElevenLabs])%list;
               stdout := (stdout r ++ [fallback_line e1])%list |}))
  /\ (forall request r0 p r2,
         summary request r0 = (Return news_summary, r) ->
         dispatch news_summary r = (Return p, r2) ->
         p <> "" -> files (world r2) !! p = Some Directory ->
         handler request r0
         = (Raise (HTTPException 500 ("[Errno 21] Is a directory: " ++ py_repr p)), r2)).
Proof.
  split; [|split].
  - intros w1 H1. rewrite (dispatch_first_raises _ _ _ _ H1).
    destruct (elevenlabs (elevenlabs_call news_summary) w1) as [o w2]. now exists o, w2.
  - intros request r0 e1 w1 w2 Hs H1 H2.
    rewrite (handler_after_summary _ _ _ _ Hs).
    unfold try_except, mbind, M_bind, bind.
    rewrite (dispatch_first_raises _ _ _ _ H1), H2. reflexivity.
  - intros request r0 p r2 Hs Hd Hp Hf.
    rewrite (handler_after_summary _ _ _ _ Hs).
    unfold try_except, mbind, M_bind, bind. rewrite Hd.
    now rewrite (build_response_of_directory p r2 Hp Hf).
Qed.

End Dispatch.

(** The primary provider calls the remote service first thing once it has
    found its credential. *)
Lemma speechify_model_calls_remote api b64 a w api_key :
  environ w !! "SPEECHIFY_API_KEY" = Some api_key ->
  network (snd (text_to_audio_speechify_model api b64 a w))
  = (network w ++ ["speechify:tts.audio.speech"])%list.
Proof.
  intros Hk. unfold text_to_audio_speechify_model. rewrite Hk.
  destruct (api api_key a); [|reflexivity].
  destruct (b64 _); [|reflexivity].
  unfold persist. simpl. now destruct (_ <=? _)%nat.
Qed.

(** C4.  Without a credential the primary entry point raises the
    [ValueError] "Speechify API key is required", which contains
    "API key is required" and is a configuration error, not a provider
    error.  The world it leaves is the one it found, so no remote call was
    made (with a credential, the remote call is the first thing it does),
    and the outcome does not depend on the remote service. *)
Theorem missing_credential_raises_config_error api b64 a w :
  environ w !! "SPEECHIFY_API_KEY" = None ->
  exists msg,
    text_to_audio_speechify_model api b64 a w = (Raise (ValueError msg), w)
    /\ contains "API key is required" msg = true
    /\ kind_of (ValueError msg) = ConfigError
    /\ kind_of (ValueError msg) <> ProviderError
    /\ network (snd (text_to_audio_speechify_model api b64 a w)) = network w
    /\ (forall api' b64',
           text_to_audio_speechify_model api' b64' a w
           = text_to_audio_speechify_model api b64 a w)
    /\ (forall w' api_key,
           environ w' !! "SPEECHIFY_API_KEY" = Some api_key ->
           network (snd (text_to_audio_speechify_model api b64 a w'))
           = (network w' ++ ["speechify:tts.audio.speech"])%list).
Proof.
  intros Hk. exists "Speechify API key is required".
  unfold text_to_audio_speechify_model at 1 2 3 4. rewrite Hk.
  repeat split; try discriminate.
  intros w' api_key. apply speechify_model_calls_remote.
Qed.

Lemma missing_credential_raises_config_error_witness :
  environ bare_world !! "SPEECHIFY_API_KEY" = None
  /\ exists msg,
       mock_speechify (speechify_call "hello") bare_world
       = (Raise (ValueError msg), bare_world)
       /\ contains "API key is required" msg = true.
Proof.
  assert (Hk : environ bare_world !! "SPEECHIFY_API_KEY" = None) by reflexivity.
  split; [exact Hk|].
  destruct (missing_credential_raises_config_error
              mock_speech_api mock_b64decode (speechify_call "hello") bare_world Hk)
    as (msg & Hraise & Hmsg & _).
  exists msg. split; [exact Hraise | exact Hmsg].
Defined.

(** C2 on the mocks: without its credential Speechify raises, the mocked
    ElevenLabs writes its chunk, and the response carries that chunk. *)
Lemma fallback_returns_second_provider_output_witness :
  exists w2,
    mock_handler mock_speechify mock_elevenlabs mock_request (start bare_world)
    = (Return (Some (audio_response fake_audio_chunk)),
       {| world := w2; invoked := [Speechify; ElevenLabs];
          stdout := ["Speechify TTS failed, falling back to ElevenLabs: "
                     ++ "Speechify API key is required"] |}).
Proof.
  pose (r := after_summary bare_world).
  pose (w2 := snd (mock_elevenlabs (elevenlabs_call "Top story.") (world r))).
  exists w2.
  refine (proj2 (proj2 (fallback_returns_second_provider_output
                          tt mock_scraper mock_scraper mock_summariser
                          mock_speechify mock_elevenlabs "Top story." r))
                mock_request (start bare_world)
                (ValueError "Speechify API key is required") (world r)
                "audio/tts_0.mp3" w2 fake_audio_chunk _ _ _ _ _).
  - vm_compute. reflexivity.
  - vm_compute. reflexivity.
  - vm_compute. reflexivity.
  - discriminate.
  - vm_compute. reflexivity.
Defined.



(** C5, as stated, fails: Speechify's remote call succeeds, its payload does
    not fit on the disk, and persisting it raises [IOError]; the handler
    catches it, invokes ElevenLabs, whose smaller chunk fits, and answers
    with that chunk. *)
Lemma io_error_in_first_provider_falls_back :
  mock_speechify (speechify_call "Top story.") (world (after_summary cramped_world))
  = (Raise (OSError "[Errno 28] No space left on device"),
     record_call "speechify:tts.audio.speech" (world (after_summary cramped_world)))
  /\ fst (mock_handler mock_speechify mock_elevenlabs mock_request (start cramped_world))
     = Return (Some (audio_response fake_audio_chunk))
  /\ invoked (snd (mock_handler mock_speechify mock_elevenlabs mock_request
                                (start cramped_world)))
     = [Speechify; ElevenLabs].
Proof. repeat split; vm_compute; reflexivity. Qed.

(** * Further properties of the voice filter *)

Lemma tag_skip_false_iff (ts : list string) voice :
  tags_skip (Some ts) voice = false <-> forall tag, In tag ts -> In tag (tags voice).
Proof.
  unfold tags_skip. destruct ts as [| t ts']; simpl truthy_list.
  - simpl. split; [intros _ tag [] | reflexivity].
  - rewrite andb_true_l, negb_false_iff. apply all_tags_spec.
Qed.

Lemma qualifies_tags_ext g loc (ts1 ts2 : list string) voice :
  (forall tag, In tag ts1 <-> In tag ts2) ->
  qualifies g loc (Some ts1) voice = qualifies g loc (Some ts2) voice.
Proof.
  intros Hsame. unfold qualifies. f_equal. f_equal.
  assert (H : tags_skip (Some ts1) voice = false <-> tags_skip (Some ts2) voice = false).
  { rewrite !tag_skip_false_iff. split; intros H tag Hin; apply H; now apply Hsame. }
  destruct (tags_skip (Some ts1) voice), (tags_skip (Some ts2) voice);
    intuition congruence.
Qed.

Lemma selected_sublist (voices voices' : list Voice) g loc ts :
  sublist voices' voices -> sublist (selected voices' g loc ts) (selected voices g loc ts).
Proof.
  unfold selected. induction 1 as [| v l k _ IH | v l k _ IH]; simpl.
  - constructor.
  - destruct (qualifies g loc ts v); [now constructor | assumption].
  - destruct (qualifies g loc ts v); [now constructor | assumption].
Qed.

Lemma flat_map_names_sublist (l k : list Voice) :
  sublist l k -> sublist (flat_map model_names l) (flat_map model_names k).
Proof.
  induction 1 as [| v l k _ IH | v l k _ IH]; simpl.
  - constructor.
  - now apply sublist_app.
  - now apply sublist_inserts_l.
Qed.

(** X1.  A name is returned exactly when it is the name of a model of a
    voice of the catalogue that passes the three guards; the result is empty
    exactly when every such voice has no model; without criteria every model
    name of the catalogue is returned. *)
Theorem result_membership voices g loc ts :
  (forall n,
      In n (filter_voice_models voices g loc ts) <->
      exists voice m,
        In voice voices /\ qualifies g loc ts voice = true
        /\ In m (models voice) /\ name m = n)
  /\ (filter_voice_models voices g loc ts = [] <->
      forall voice, In voice voices -> qualifies g loc ts voice = true -> models voice = [])
  /\ filter_voice_models voices None None None = flat_map model_names voices.
Proof.
  split; [|split].
  - intros n. rewrite filter_voice_models_spec, in_flat_map. unfold selected, model_names.
    split.
    + intros (voice & Hv & Hn). apply filter_In in Hv as [Hin Hq].
      apply in_map_iff in Hn as (m & Hname & Hm). now exists voice, m.
    + intros (voice & m & Hin & Hq & Hm & Hname). exists voice. split.
      * now apply filter_In.
      * apply in_map_iff. now exists m.
  - rewrite filter_voice_models_spec. unfold selected.
    induction voices as [| v rest IH]; simpl.
    + split; [intros _ voice [] | reflexivity].
    + destruct (qualifies g loc ts v) eqn:Hq; simpl.
      * split.
        -- intros H. apply app_eq_nil in H as [Hv Hrest].
           intros voice [<- | Hin] Hqv.
           ++ unfold model_names in Hv. now apply map_eq_nil in Hv.
           ++ now apply (proj1 IH Hrest).
        -- intros H. rewrite (proj2 IH) by (intros; apply H; auto).
           unfold model_names. now rewrite (H v (or_introl eq_refl) Hq).
      * rewrite IH. split; intros H voice.
        -- intros [<- | Hin] Hqv; [congruence | now apply H].
        -- intros Hin. apply H. now right.
  - rewrite filter_voice_models_spec. unfold selected.
    apply (f_equal (flat_map model_names)).
    induction voices as [| v rest IH]; simpl; [reflexivity | now rewrite IH].
Qed.

(** X2.  The requested tags act as a set: two requests with the same
    elements, in any order and with any repetitions, give the same result. *)
Theorem requested_tags_form_a_set voices g loc (ts1 ts2 : list string) :
  (forall tag, In tag ts1 <-> In tag ts2) ->
  filter_voice_models voices g loc (Some ts1) = filter_voice_models voices g loc (Some ts2).
Proof.
  intros Hsame. rewrite !filter_voice_models_spec.
  apply (f_equal (flat_map model_names)). apply selected_ext.
  intros voice. now apply qualifies_tags_ext.
Qed.

Lemma requested_tags_form_a_set_witness :
  (forall tag, In tag ["timbre:deep"; "accent:american"; "timbre:deep"]
               <-> In tag ["accent:american"; "timbre:deep"])
  /\ filter_voice_models [mock_voice1; mock_voice2] None None
       (Some ["timbre:deep"; "accent:american"; "timbre:deep"])
     = filter_voice_models [mock_voice1; mock_voice2] None None
         (Some ["accent:american"; "timbre:deep"]).
Proof.
  assert (H : forall tag, In tag ["timbre:deep"; "accent:american"; "timbre:deep"]
                          <-> In tag ["accent:american"; "timbre:deep"])
    by (intros tag; simpl; tauto).
  split; [exact H|].
  exact (requested_tags_form_a_set [mock_voice1; mock_voice2] None None _ _ H).
Defined.

(** X3.  The result follows the catalogue: a sub-catalogue (voices removed,
    order kept) gives a subsequence of the names, and a reordered catalogue
    gives the same names reordered. *)
Theorem result_follows_catalogue voices voices' g loc ts :
  (sublist voices' voices ->
   sublist (filter_voice_models voices' g loc ts) (filter_voice_models voices g loc ts))
  /\ (Permutation voices voices' ->
      Permutation (filter_voice_models voices g loc ts)
                  (filter_voice_models voices' g loc ts)).
Proof.
  rewrite !filter_voice_models_spec. split.
  - intros H. apply flat_map_names_sublist. now apply selected_sublist.
  - intros H. unfold selected.
    induction H as [| v l k _ IH | v1 v2 l | l k m _ IH1 _ IH2]; simpl.
    + constructor.
    + destruct (qualifies g loc ts v); simpl; [now apply Permutation_app_head | assumption].
    + destruct (qualifies g loc ts v1), (qualifies g loc ts v2); simpl; try reflexivity.
      rewrite !app_assoc. apply Permutation_app_tail. apply Permutation_app_comm.
    + now transitivity (flat_map model_names (List.filter (qualifies g loc ts) k)).
Qed.

(** X4.  A voice's gender counts only up to letter case: rewriting the
    genders of the catalogue in another case, with tags and models kept,
    leaves every result as it is. *)
Theorem voice_gender_counts_up_to_case (recase : Voice -> Voice) voices g loc ts :
  (forall voice,
      lower (gender (recase voice)) = lower (gender voice)
      /\ tags (recase voice) = tags voice /\ models (recase voice) = models voice) ->
  filter_voice_models (map recase voices) g loc ts = filter_voice_models voices g loc ts.
Proof.
  intros H. rewrite !filter_voice_models_spec. unfold selected.
  induction voices as [| v rest IH]; simpl; [reflexivity|].
  destruct (H v) as (Hg & Ht & Hm).
  assert (Hq : qualifies g loc ts (recase v) = qualifies g loc ts v).
  { unfold qualifies, gender_skip, locale_skip, tags_skip, any_locale, all_tags.
    now rewrite Hg, Ht, Hm. }
  rewrite Hq. destruct (qualifies g loc ts v); simpl; [|assumption].
  rewrite IH. unfold model_names. now rewrite Hm.
Qed.

Lemma voice_gender_counts_up_to_case_witness :
  filter_voice_models (map (fun v => with_gender v "MALE") [mock_voice1; shared_a])
                      (Some "male") None None
  = filter_voice_models (map (fun v => with_gender v (lower (gender v)))
                             (map (fun v => with_gender v "MALE") [mock_voice1; shared_a]))
                        (Some "male") None None.
Proof.
  symmetry.
  apply (voice_gender_counts_up_to_case (fun v => with_gender v (lower (gender v)))).
  intros voice. simpl. repeat split. apply lower_idem.
Defined.

(** X5.  A locale criterion selects voices, not models: when one model of a
    voice supports the requested locale, the names of all its models are
    returned, also of those that do not support it. *)
Theorem locale_match_returns_sibling_models voice (loc : string) m :
  loc <> "" ->
  any_locale loc voice = true ->
  In m (models voice) ->
  In (name m) (filter_voice_models [voice] None (Some loc) None).
Proof.
  intros Hloc Hany Hm. rewrite filter_voice_models_one.
  unfold qualifies, locale_skip. apply truthy_str_true in Hloc.
  rewrite Hloc, Hany. simpl. unfold model_names. now apply in_map.
Qed.

Lemma locale_match_returns_sibling_models_witness :
  In "simba-french" (filter_voice_models [two_model_voice] None (Some "en-US") None)
  /\ existsb (fun lang => String.eqb (locale lang) "en-US")
             (languages {| name := "simba-french"; languages := [ {| locale := "fr-FR" |} ] |})
     = false.
Proof.
  split; [|reflexivity].
  apply (locale_match_returns_sibling_models two_model_voice "en-US"
           {| name := "simba-french"; languages := [ {| locale := "fr-FR" |} ] |}).
  - discriminate.
  - reflexivity.
  - simpl. auto.
Defined.

(** * Further properties of the handler *)

Lemma lift_keeps_log {A} (f : Effect A) r :
  invoked (snd (lift f r)) = invoked r /\ stdout (snd (lift f r)) = stdout r.
Proof. unfold lift. now destruct (f (world r)). Qed.

Section Handler.

Context {Data : Type} (empty_dict : Data).
Variable scrape_news : list string -> Effect Data.
Variable scrape_reddit_topics : list string -> Effect Data.
Variable generate_broadcast_news :
  option string -> Data -> Data -> list string -> Effect string.
Variable speechify : SpeechifyArgs -> Effect string.
Variable elevenlabs : ElevenLabsArgs -> Effect string.

Local Abbreviation dispatch := (tts_with_fallback speechify elevenlabs).
Local Abbreviation summary :=
  (gather_summary empty_dict scrape_news scrape_reddit_topics generate_broadcast_news).
Local Abbreviation handler :=
  (generate_news_audio empty_dict scrape_news scrape_reddit_topics
                       generate_broadcast_news speechify elevenlabs).
Local Abbreviation summarise news_data reddit_data request :=
  (api_key ← getenv "ANTHROPIC_API_KEY";
   lift (generate_broadcast_news api_key news_data reddit_data (topics request))).

(** X6.  The source type selects the scrapers: "news" runs the news scraper
    only, "reddit" the Reddit scraper only, "both" the news scraper and then
    the Reddit scraper; a source that was not scraped contributes the empty
    dictionary.  Any other source type is not rejected: no scraper runs and
    the summary is generated from two empty dictionaries. *)
Theorem scrapers_follow_source_type request r :
  (source_type request = "news" ->
   summary request r
   = (news ← lift (scrape_news (topics request));
      summarise news empty_dict request) r)
  /\ (source_type request = "reddit" ->
      summary request r
      = (reddit ← lift (scrape_reddit_topics (topics request));
         summarise empty_dict reddit request) r)
  /\ (source_type request = "both" ->
      summary request r
      = (news ← lift (scrape_news (topics request));
         reddit ← lift (scrape_reddit_topics (topics request));
         summarise news reddit request) r)
  /\ (source_type request <> "news" -> source_type request <> "reddit" ->
      source_type request <> "both" ->
      summary request r = summarise empty_dict empty_dict request r).
Proof.
  unfold gather_summary, str_in. repeat split.
  - intros ->. simpl existsb. unfold mbind, M_bind, bind, mret, M_ret, ret.
    destruct (lift (scrape_news (topics request)) r) as [[news | e] r']; [|reflexivity].
    now rewrite lookup_insert_eq, lookup_insert_ne, lookup_empty by discriminate.
  - intros ->. simpl existsb. unfold mbind, M_bind, bind, mret, M_ret, ret.
    destruct (lift (scrape_reddit_topics (topics request)) r) as [[reddit | e] r'];
      [|reflexivity].
    now rewrite lookup_insert_eq, lookup_insert_ne, lookup_empty by discriminate.
  - intros ->. simpl existsb. unfold mbind, M_bind, bind, mret, M_ret, ret.
    destruct (lift (scrape_news (topics request)) r) as [[news | e] r']; [|reflexivity].
    destruct (lift (scrape_reddit_topics (topics request)) r') as [[reddit | e] r''];
      [|reflexivity].
    rewrite lookup_insert_eq, lookup_insert_ne by discriminate.
    now rewrite lookup_insert_eq.
  - intros Hn Hr Hb. simpl existsb.
    apply String.eqb_neq in Hn, Hr, Hb. rewrite Hn, Hr, Hb. simpl.
    unfold mbind, M_bind, bind, mret, M_ret, ret. now rewrite lookup_empty.
Qed.

(** Scraping and summarising invoke no speech provider and print nothing. *)
Lemma summary_keeps_log request r :
  invoked (snd (summary request r)) = invoked r
  /\ stdout (snd (summary request r)) = stdout r.
Proof.
  unfold gather_summary, mbind, M_bind, bind, mret, M_ret, ret, getenv.
  destruct (str_in (source_type request) ["news"; "both"]).
  - unfold bind. pose proof (lift_keeps_log (scrape_news (topics request)) r) as [Hi Ho].
    destruct (lift (scrape_news (topics request)) r) as [[news | e] r1];
      simpl in Hi, Ho; [|now simpl].
    destruct (str_in (source_type request) ["reddit"; "both"]).
    + pose proof (lift_keeps_log (scrape_reddit_topics (topics request)) r1) as [Hi' Ho'].
      destruct (lift (scrape_reddit_topics (topics request)) r1) as [[reddit | e] r2];
        simpl in Hi', Ho'; [|simpl; split; congruence].
      match goal with |- context [lift ?f r2] =>
        pose proof (lift_keeps_log f r2) as [Hi'' Ho''] end.
      split; congruence.
    + match goal with |- context [lift ?f r1] =>
        pose proof (lift_keeps_log f r1) as [Hi'' Ho''] end.
      split; congruence.
  - destruct (str_in (source_type request) ["reddit"; "both"]).
    + unfold bind.
      pose proof (lift_keeps_log (scrape_reddit_topics (topics request)) r) as [Hi' Ho'].
      destruct (lift (scrape_reddit_topics (topics request)) r) as [[reddit | e] r2];
        simpl in Hi', Ho'; [|now simpl].
      match goal with |- context [lift ?f r2] =>
        pose proof (lift_keeps_log f r2) as [Hi'' Ho''] end.
      split; congruence.
    + match goal with |- context [lift ?f r] =>
        pose proof (lift_keeps_log f r) as [Hi'' Ho''] end.
      split; assumption.
Qed.

Lemma build_response_keeps_run audio_path r : snd (build_response audio_path r) = r.
Proof.
  destruct (build_response_cases audio_path r)
    as [(data & _ & Hb) | [(e & Hb) | (_ & Hb)]]; now rewrite Hb.
Qed.

(** What the dispatcher adds to the log of a run. *)
Lemma dispatch_log news_summary r :
  (invoked (snd (dispatch news_summary r)) = (invoked r ++ [Speechify])%list
   /\ stdout (snd (dispatch news_summary r)) = stdout r)
  \/ (exists e,
         invoked (snd (dispatch news_summary r))
         = (invoked r ++ [Speechify; ElevenLabs])%list
         /\ stdout (snd (dispatch news_summary r))
            = (stdout r ++ [("Speechify TTS failed, falling back to ElevenLabs: "
                            ++ str e)%string])%list).
Proof.
  destruct (speechify (speechify_call news_summary) (world r)) as [[p | e] w1] eqn:H1.
  - left. now rewrite (dispatch_first_returns _ _ _ _ _ _ H1).
  - right. exists e. rewrite (dispatch_first_raises _ _ _ _ _ _ H1).
    now destruct (elevenlabs (elevenlabs_call news_summary) w1).
Qed.

Lemma failures_surface_as_http_500_aux request r0 :
  (forall e r1,
      summary request r0 = (Raise e, r1) ->
      handler request r0 = (Raise (HTTPException 500 (str e)), r1)
      /\ invoked r1 = invoked r0 /\ stdout r1 = stdout r0).
Proof.
  intros e r1 Hs. pose proof (summary_keeps_log request r0) as Hlog.
  rewrite Hs in Hlog. simpl in Hlog. split; [|exact Hlog].
  unfold generate_news_audio, try_except.
  unfold mbind at 1, M_bind at 1, bind at 1. now rewrite Hs.
Qed.


(** X8.  Over one request the handler invokes no provider at all (the
    summary failed), Speechify alone, or Speechify and then ElevenLabs; the
    third imported provider is never invoked.  It prints one line, the
    fallback notice, exactly in the last case. *)
Theorem providers_invoked_in_order request r0 :
  (invoked (snd (handler request r0)) = invoked r0
   /\ stdout (snd (handler request r0)) = stdout r0
   /\ exists e, fst (summary request r0) = Raise e)
  \/ (invoked (snd (handler request r0)) = (invoked r0 ++ [Speechify])%list
      /\ stdout (snd (handler request r0)) = stdout r0)
  \/ (exists e,
         invoked (snd (handler request r0)) = (invoked r0 ++ [Speechify; ElevenLabs])%list
         /\ stdout (snd (handler request r0))
            = (stdout r0 ++ [("Speechify TTS failed, falling back to ElevenLabs: "
                             ++ str e)%string])%list).
Proof.
  pose proof (summary_keeps_log request r0) as [Hi Ho].
  destruct (summary request r0) as [[news_summary | e] r1] eqn:Hs; simpl in Hi, Ho.
  - rewrite (handler_after_summary _ _ _ _ _ _ _ _ _ _ Hs).
    assert (Hsnd : snd (try_except
                          (audio_path ← dispatch news_summary; build_response audio_path)
                          (fun e => raise (HTTPException 500 (str e))) r1)
                   = snd (dispatch news_summary r1)).
    { unfold try_except, mbind, M_bind, bind, raise.
      destruct (dispatch news_summary r1) as [[p | e] r2]; [|reflexivity].
      pose proof (build_response_keeps_run p r2) as Hk.
      now destruct (build_response p r2) as [[resp | e] r3]. }
    rewrite Hsnd, <- Hi, <- Ho. right. apply dispatch_log.
  - left. destruct (failures_surface_as_http_500_aux request r0 e r1 Hs)
      as (Hh & _ & _).
    rewrite Hh. simpl. repeat split; try assumption. now exists e.
Qed.


End Handler.


(** * Properties of the test script *)

Import TestSimple.

Lemma emit_emit lines1 lines2 r : emit lines2 (emit lines1 r) = emit (lines1 ++ lines2) r.
Proof. unfold emit. simpl. now rewrite <- app_assoc. Qed.

Lemma print_emit line r : print line r = (Return tt, emit [line] r).
Proof. reflexivity. Qed.

Lemma print_then {A} line (k : M A) r : (print line;; k) r = k (emit [line] r).
Proof. reflexivity. Qed.

Lemma print_print_then {A} line1 line2 (k : M A) r :
  ((print line1;; print line2);; k) r = k (emit [line1; line2] r).
Proof.
  change (((print line1;; print line2);; k) r) with (k (emit [line2] (emit [line1] r))).
  now rewrite emit_emit.
Qed.

(** One turn of the loop. *)
Lemma run_tests_cons test_name test_func rest passed r :
  run_tests ((test_name, test_func) :: rest) passed r
  = match test_func (snd (print (nl ++ "🔍 " ++ test_name ++ ":") r)) with
    | (Return true, r1) => run_tests rest (S passed) r1
    | (Return false, r1) => run_tests rest passed r1
    | (Raise e, r1) =>
        run_tests rest passed
          (snd (print ("❌ " ++ test_name ++ " failed with exception: " ++ str e) r1))
    end.
Proof.
  simpl run_tests.
  unfold mbind, M_bind, bind, try_except, print, mret, M_ret, ret. simpl.
  destruct (test_func _) as [[[|] | e] r1]; reflexivity.
Qed.

Lemma run_tests_step_passing test_name test_func rest passed r :
  always_passes test_func ->
  exists r', run_tests ((test_name, test_func) :: rest) passed r
             = run_tests rest (S passed) r'.
Proof.
  intros Hpass. rewrite run_tests_cons.
  destruct (Hpass (snd (print (nl ++ "🔍 " ++ test_name ++ ":") r))) as [r' ->].
  now exists r'.
Qed.

Lemma run_tests_step_any test_name test_func rest passed r :
  exists passed' r',
    run_tests ((test_name, test_func) :: rest) passed r = run_tests rest passed' r'
    /\ passed <= passed' <= S passed.
Proof.
  rewrite run_tests_cons.
  destruct (test_func _) as [[[|] | e] r1]; eexists _, _; split; try reflexivity; lia.
Qed.

Lemma run_tests_returns tests passed r :
  exists n r',
    run_tests tests passed r = (Return n, r')
    /\ passed <= n <= passed + length tests
    /\ (n = passed + length tests <-> all_pass tests r).
Proof.
  revert passed r. induction tests as [| [test_name test_func] rest IH]; intros passed r.
  - exists passed, r. simpl. split; [reflexivity | split; [lia | split; [trivial | lia]]].
  - rewrite run_tests_cons. simpl length. simpl all_pass.
    destruct (test_func _) as [[[|] | e] r1].
    + destruct (IH (S passed) r1) as (n & r' & Hrun & Hn & Hall).
      exists n, r'. split; [exact Hrun | split; [lia|]]. split.
      * intros Hfull. exists r1. split; [reflexivity|]. apply Hall. lia.
      * intros (r'' & [= <-] & Hrest). apply Hall in Hrest. lia.
    + destruct (IH passed r1) as (n & r' & Hrun & Hn & _).
      exists n, r'. split; [exact Hrun | split; [lia|]]. split.
      * intros Hfull. lia.
      * intros (r'' & [=] & _).
    + destruct (IH passed (snd (print ("❌ " ++ test_name ++ " failed with exception: "
                                        ++ str e) r1)))
        as (n & r' & Hrun & Hn & _).
      exists n, r'. split; [exact Hrun | split; [lia|]]. split.
      * intros Hfull. lia.
      * intros (r'' & [=] & _).
Qed.

Lemma run_tests_app tests more passed r :
  run_tests (tests ++ more) passed r
  = (n ← run_tests tests passed; run_tests more n) r.
Proof.
  revert passed r. induction tests as [| [test_name test_func] rest IH]; intros passed r.
  - reflexivity.
  - simpl app. unfold mbind, M_bind, bind. rewrite !run_tests_cons.
    destruct (test_func _) as [[[|] | e] r1]; rewrite IH; reflexivity.
Qed.

(** X10.  The loop of [main] never raises and counts at most one per test.
    One turn of it prints the test's name and runs the test: a test that
    returns [True] raises the count by one; a test that returns [False]
    leaves the count; a test that raises is reported and leaves the count;
    in all three cases the remaining tests then run, in the run the test
    left.  Looping over two lists in a row is looping over their
    concatenation, and the count is full exactly when every test returned
    [True]. *)
Theorem runner_counts_passing_tests tests passed r :
  (exists n r',
      run_tests tests passed r = (Return n, r')
      /\ passed <= n <= passed + length tests
      /\ (n = passed + length tests <-> all_pass tests r))
  /\ (forall test_name test_func r1,
         test_func (emit [nl ++ "🔍 " ++ test_name ++ ":"] r) = (Return true, r1) ->
         run_tests ((test_name, test_func) :: tests) passed r
         = run_tests tests (S passed) r1)
  /\ (forall test_name test_func r1,
         test_func (emit [nl ++ "🔍 " ++ test_name ++ ":"] r) = (Return false, r1) ->
         run_tests ((test_name, test_func) :: tests) passed r
         = run_tests tests passed r1)
  /\ (forall test_name test_func e r1,
         test_func (emit [nl ++ "🔍 " ++ test_name ++ ":"] r) = (Raise e, r1) ->
         run_tests ((test_name, test_func) :: tests) passed r
         = run_tests tests passed
             (emit ["❌ " ++ test_name ++ " failed with exception: " ++ str e] r1))
  /\ (forall more,
         run_tests (tests ++ more) passed r
         = (n ← run_tests tests passed; run_tests more n) r).
Proof.
  split; [apply run_tests_returns|].
  repeat split.
  - intros test_name test_func r1 Ht. rewrite run_tests_cons, print_emit.
    cbn [snd]. now rewrite Ht.
  - intros test_name test_func r1 Ht. rewrite run_tests_cons, print_emit.
    cbn [snd]. now rewrite Ht.
  - intros test_name test_func e r1 Ht. rewrite run_tests_cons, print_emit.
    cbn [snd]. now rewrite Ht.
  - intros more. apply run_tests_app.
Qed.

Lemma pretty_small : pretty 2 = "2" /\ pretty 6 = "6".
Proof. split; vm_compute; reflexivity. Qed.

Section Script.

Context {Client Options : Type}.
Variable Speechify_client : string -> Effect Client.
Variable GetSpeechOptionsRequest : bool -> bool -> Effect Options.
Variable speech : Client -> string -> string -> string -> string -> Options -> string
                  -> Effect string.
Variable b64decode : string -> Effect bytes.

Local Abbreviation tests available :=
  (simple_tests available Speechify_client GetSpeechOptionsRequest speech b64decode).
Local Abbreviation script available :=
  (main available Speechify_client GetSpeechOptionsRequest speech b64decode).

(** The line [test_environment_variable] prints. *)
Local Abbreviation key_line api_key :=
  (match api_key with
   | Some key =>
       if truthy_str key
       then "✅ SPEECHIFY_API_KEY is set: " ++ String.substring 0 10 key ++ "..."
       else "⚠️  SPEECHIFY_API_KEY not set (this is expected for testing)"
   | None => "⚠️  SPEECHIFY_API_KEY not set (this is expected for testing)"
   end).

Lemma filtering_test_passes r :
  run_test_voice_filtering_logic r
  = (Return true, emit ["✅ Voice filtering logic works correctly"] r).
Proof. reflexivity. Qed.

Lemma environment_test_passes r :
  test_environment_variable r
  = (Return true, emit [key_line (environ (world r) !! "SPEECHIFY_API_KEY")] r).
Proof.
  unfold test_environment_variable, mbind, M_bind, bind, getenv.
  destruct (environ (world r) !! "SPEECHIFY_API_KEY") as [key |]; [|reflexivity].
  now destruct (truthy_str key).
Qed.

(** X11.  Without the SDK the script's whole output is fixed up to the line
    about the API key: the four SDK tests fail, the filtering test and the
    environment test pass, the report reads 2/6 with the failure notice and
    the installation hint, and nothing but the output changes. *)
Theorem script_without_sdk_reports_two_of_six r :
  script false r
  = (Return tt,
     emit [ "🧪 Testing Speechify TTS Migration"; str_mul "=" 50;
            nl ++ "🔍 Import Test:"; "❌ Speechify API not available";
            nl ++ "🔍 Client Creation:"; "❌ Speechify API not available";
            nl ++ "🔍 Options Creation:"; "❌ Speechify API not available";
            nl ++ "🔍 TTS Function:"; "❌ Speechify API not available";
            nl ++ "🔍 Voice Filtering:"; "✅ Voice filtering logic works correctly";
            nl ++ "🔍 Environment Variable:";
            key_line (environ (world r) !! "SPEECHIFY_API_KEY");
            nl ++ str_mul "=" 50;
            "📊 Test Results: 2/6 tests passed";
            "⚠️  Some tests failed. Check the output above.";
            nl ++ "📝 To install Speechify API:";
            "   pip install speechify-api";
            nl ++ "📝 To set up your API key:";
            "   export SPEECHIFY_API_KEY='your_api_key_here'";
            "   Get your API key at: https://console.sws.speechify.com/signup" ] r).
Proof.
  destruct pretty_small as [H2 H6].
  unfold main, simple_tests. simpl length.
  rewrite !print_then.
  unfold mbind at 1, M_bind at 1, bind at 1.
  rewrite run_tests_cons, print_emit. cbn [snd].
  change (test_speechify_import false (emit ?l ?r0))
    with (@Return bool false, emit ["❌ Speechify API not available"] (emit l r0)).
  cbv iota beta.
  rewrite run_tests_cons, print_emit. cbn [snd].
  change (test_speechify_client_creation false _ (emit ?l ?r0))
    with (@Return bool false, emit ["❌ Speechify API not available"] (emit l r0)).
  cbv iota beta.
  rewrite run_tests_cons, print_emit. cbn [snd].
  change (test_speechify_options false _ (emit ?l ?r0))
    with (@Return bool false, emit ["❌ Speechify API not available"] (emit l r0)).
  cbv iota beta.
  rewrite run_tests_cons, print_emit. cbn [snd].
  change (test_speechify_tts_function false _ _ _ _ (emit ?l ?r0))
    with (@Return bool false, emit ["❌ Speechify API not available"] (emit l r0)).
  cbv iota beta.
  rewrite run_tests_cons, print_emit. cbn [snd].
  rewrite filtering_test_passes. cbv iota beta.
  rewrite run_tests_cons, print_emit. cbn [snd].
  rewrite environment_test_passes. cbv iota beta.
  cbn [run_tests]. unfold ret at 1. cbv iota beta.
  unfold report. change (Nat.eqb 2 6) with false. change (negb false) with true.
  cbv iota. rewrite !print_then, print_print_then, !print_then, print_emit, H2, H6.
  rewrite !emit_emit. reflexivity.
Qed.

Lemma import_test_passes : always_passes (test_speechify_import true).
Proof. intros r. eexists. reflexivity. Qed.

Lemma client_creation_test_passes :
  always_passes (test_speechify_client_creation true Speechify_client).
Proof.
  intros r. unfold test_speechify_client_creation.
  change (negb true) with false. cbv iota.
  unfold try_except, mbind, M_bind, bind, lift, print, mret, M_ret, ret.
  destruct (Speechify_client "test_token" (world r)) as [[client | e] w];
    eexists; reflexivity.
Qed.

(** X12.  With the SDK imported at least four of the six tests pass whatever
    the SDK does: the client-creation test accepts a constructor that
    raises, and the import, filtering and environment tests do not use the
    SDK.  The report prints the count and the success notice exactly when
    the count is six. *)
Theorem script_with_sdk_passes_at_least_four r :
  always_passes (test_speechify_client_creation true Speechify_client)
  /\ exists n r1,
       run_tests (tests true) 0
                 (emit ["🧪 Testing Speechify TTS Migration"; str_mul "=" 50] r)
       = (Return n, r1)
       /\ 4 <= n <= 6
       /\ script true r
          = (Return tt,
             emit [ nl ++ str_mul "=" 50;
                    "📊 Test Results: " ++ pretty n ++ "/" ++ pretty 6 ++ " tests passed";
                    if Nat.eqb n 6
                    then "🎉 All tests passed! Speechify migration is ready."
                    else "⚠️  Some tests failed. Check the output above.";
                    nl ++ "📝 To set up your API key:";
                    "   export SPEECHIFY_API_KEY='your_api_key_here'";
                    "   Get your API key at: https://console.sws.speechify.com/signup" ]
                  r1).
Proof.
  split; [exact client_creation_test_passes|].
  set (r0 := emit ["🧪 Testing Speechify TTS Migration"; str_mul "=" 50] r).
  assert (Hrun : exists n r1, run_tests (tests true) 0 r0 = (Return n, r1) /\ 4 <= n <= 6).
  { unfold simple_tests.
    destruct (run_tests_step_passing "Import Test" _
                [("Client Creation", test_speechify_client_creation true Speechify_client);
                 ("Options Creation", test_speechify_options true GetSpeechOptionsRequest);
                 ("TTS Function",
                  test_speechify_tts_function true Speechify_client
                    GetSpeechOptionsRequest speech b64decode);
                 ("Voice Filtering", run_test_voice_filtering_logic);
                 ("Environment Variable", test_environment_variable)]
                0 r0 import_test_passes) as [ra ->].
    destruct (run_tests_step_passing "Client Creation" _
                [("Options Creation", test_speechify_options true GetSpeechOptionsRequest);
                 ("TTS Function",
                  test_speechify_tts_function true Speechify_client
                    GetSpeechOptionsRequest speech b64decode);
                 ("Voice Filtering", run_test_voice_filtering_logic);
                 ("Environment Variable", test_environment_variable)]
                1 ra client_creation_test_passes) as [rb ->].
    destruct (run_tests_step_any "Options Creation"
                (test_speechify_options true GetSpeechOptionsRequest)
                [("TTS Function",
                  test_speechify_tts_function true Speechify_client
                    GetSpeechOptionsRequest speech b64decode);
                 ("Voice Filtering", run_test_voice_filtering_logic);
                 ("Environment Variable", test_environment_variable)]
                2 rb) as (p3 & rc & -> & H3).
    destruct (run_tests_step_any "TTS Function"
                (test_speechify_tts_function true Speechify_client
                   GetSpeechOptionsRequest speech b64decode)
                [("Voice Filtering", run_test_voice_filtering_logic);
                 ("Environment Variable", test_environment_variable)]
                p3 rc) as (p4 & rd & -> & H4).
    rewrite run_tests_cons, print_emit. cbn [snd].
    rewrite filtering_test_passes. cbv iota beta.
    rewrite run_tests_cons, print_emit. cbn [snd].
    rewrite environment_test_passes. cbv iota beta.
    cbn [run_tests]. eexists _, _. split; [reflexivity | lia]. }
  destruct Hrun as (n & r1 & Hrun & Hn). exists n, r1.
  split; [exact Hrun | split; [exact Hn|]].
  unfold main. simpl length. rewrite !print_then.
  rewrite emit_emit.
  change (["🧪 Testing Speechify TTS Migration"] ++ [str_mul "=" 50])%list
    with ["🧪 Testing Speechify TTS Migration"; str_mul "=" 50].
  fold r0.
  unfold mbind at 1, M_bind at 1, bind at 1. rewrite Hrun.
  unfold report. change (negb true) with false. cbv iota.
  destruct (Nat.eqb n 6);
    rewrite !print_then; unfold mbind, M_bind, bind, mret, M_ret, ret;
    rewrite !print_emit, !emit_emit; reflexivity.
Qed.

End Script.

(** * Properties of the example script *)

Section ExampleRuns.

Import ExampleScript.

Variable provider : SpeechifyKwargs -> Effect string.

Lemma multilingual_loop_runs entries r :
  exists r',
    multilingual_loop provider entries r = (Return tt, r')
    /\ world r' = attempts provider (map multilingual_call entries) (world r)
    /\ invoked r' = (invoked r ++ repeat Speechify (length entries))%list
    /\ length (stdout r') = length (stdout r) + 2 * length entries.
Proof.
  revert r. induction entries as [| [lang_code text] rest IH]; intros r.
  - exists r. simpl. rewrite app_nil_r. repeat split. lia.
  - simpl multilingual_loop.
    unfold mbind, M_bind, bind at 1, try_except, bind at 1 2, print at 1, call.
    cbn [world invoked stdout].
    destruct (provider (multilingual_call (lang_code, text)) (world r)) as [[path | e] w] eqn:Hp;
      cbn [print world invoked stdout];
      match goal with |- context [multilingual_loop provider rest ?r1] =>
        destruct (IH r1) as (r' & Hrun & Hw & Hi & Ho) end;
      exists r'; rewrite Hrun; cbn [world invoked stdout] in Hw, Hi, Ho;
      (split; [reflexivity|]); unfold attempts in *; simpl; rewrite Hp; simpl;
      (split; [exact Hw|]);
      (split; [rewrite Hi, <- app_assoc; reflexivity|]);
      rewrite Ho, !length_app; simpl; lia.
Qed.

Lemma formats_loop_runs fmts r :
  exists r',
    formats_loop provider fmts r = (Return tt, r')
    /\ world r' = attempts provider (map format_call fmts) (world r)
    /\ invoked r' = (invoked r ++ repeat Speechify (length fmts))%list
    /\ length (stdout r') = length (stdout r) + 2 * length fmts.
Proof.
  revert r. induction fmts as [| fmt rest IH]; intros r.
  - exists r. simpl. rewrite app_nil_r. repeat split. lia.
  - simpl formats_loop.
    unfold mbind, M_bind, bind at 1, try_except, bind at 1 2, print at 1, call.
    cbn [world invoked stdout].
    destruct (provider (format_call fmt) (world r)) as [[path | e] w] eqn:Hp;
      cbn [print world invoked stdout];
      match goal with |- context [formats_loop provider rest ?r1] =>
        destruct (IH r1) as (r' & Hrun & Hw & Hi & Ho) end;
      exists r'; rewrite Hrun; cbn [world invoked stdout] in Hw, Hi, Ho;
      (split; [reflexivity|]); unfold attempts in *; simpl; rewrite Hp; simpl;
      (split; [exact Hw|]);
      (split; [rewrite Hi, <- app_assoc; reflexivity|]);
      rewrite Ho, !length_app; simpl; lia.
Qed.

(** X13.  The multilingual example never raises.  With the utilities
    imported it attempts English, French, German and Spanish in this order,
    each with the multilingual model and each in the world the previous
    attempt left, whether that attempt returned or raised, and prints two
    lines per language after its two header lines; without them it calls
    nothing and prints the notice. *)
Theorem multilingual_example_attempts_every_language r :
  (exists r',
      example_multilingual_tts true provider r = (Return tt, r')
      /\ world r' = attempts provider (map multilingual_call languages) (world r)
      /\ invoked r' = (invoked r ++ [Speechify; Speechify; Speechify; Speechify])%list
      /\ length (stdout r') = length (stdout r) + 10)
  /\ map kw_language (map multilingual_call languages)
     = [Some "en-US"; Some "fr-FR"; Some "de-DE"; Some "es-ES"]
  /\ (forall kwargs, In kwargs (map multilingual_call languages) ->
                     kw_model kwargs = Some "simba-multilingual")
  /\ example_multilingual_tts false provider r
     = (Return tt,
        emit [ nl ++ "🎤 Example 3: Multilingual TTS Generation"; str_mul "-" 40;
               "❌ Utils not available - skipping example" ] r).
Proof.
  split; [|split; [reflexivity | split]].
  - unfold example_multilingual_tts. change (negb true) with false. cbv iota.
    rewrite !print_then.
    destruct (multilingual_loop_runs languages
                (emit [str_mul "-" 40]
                   (emit [nl ++ "🎤 Example 3: Multilingual TTS Generation"] r)))
      as (r' & Hrun & Hw & Hi & Ho).
    exists r'. split; [exact Hrun | split; [exact Hw | split; [exact Hi|]]].
    rewrite Ho. unfold emit. cbn [stdout]. rewrite !length_app. simpl. lia.
  - intros kwargs Hin. simpl in Hin.
    destruct Hin as [<- | [<- | [<- | [<- | []]]]]; reflexivity.
  - unfold example_multilingual_tts. change (negb false) with true. cbv iota.
    rewrite !print_then, print_emit, !emit_emit. reflexivity.
Qed.

(** X14.  The formats example never raises.  With the utilities imported it
    attempts "mp3" and then "wav", the second in the world the first attempt
    left whether it returned or raised, and prints two lines per format
    after its two header lines; without them it calls nothing and prints the
    notice. *)
Theorem formats_example_attempts_every_format r :
  (exists r',
      example_different_formats true provider r = (Return tt, r')
      /\ world r' = attempts provider [format_call "mp3"; format_call "wav"] (world r)
      /\ invoked r' = (invoked r ++ [Speechify; Speechify])%list
      /\ length (stdout r') = length (stdout r) + 6)
  /\ example_different_formats false provider r
     = (Return tt,
        emit [ nl ++ "🎤 Example 5: Different Audio Formats"; str_mul "-" 40;
               "❌ Utils not available - skipping example" ] r).
Proof.
  split.
  - unfold example_different_formats. change (negb true) with false. cbv iota.
    rewrite !print_then.
    destruct (formats_loop_runs formats
                (emit [str_mul "-" 40]
                   (emit [nl ++ "🎤 Example 5: Different Audio Formats"] r)))
      as (r' & Hrun & Hw & Hi & Ho).
    exists r'. split; [exact Hrun | split; [exact Hw | split; [exact Hi|]]].
    rewrite Ho. unfold emit. cbn [stdout]. rewrite !length_app. simpl. lia.
  - unfold example_different_formats. change (negb false) with true. cbv iota.
    rewrite !print_then, print_emit, !emit_emit. reflexivity.
Qed.

End ExampleRuns.

(** A failure for French does not keep German and Spanish from being
    attempted. *)
Example french_failure_does_not_stop_the_example :
  network (world (snd (ExampleScript.example_multilingual_tts
                         true ExampleScript.no_french (start bare_world))))
  = ["ok"; "fr"; "ok"; "ok"].
Proof. vm_compute. reflexivity. Qed.
